(** * Eeprom24_HAL: a shallow embedding of the 24xx EEPROM driver

    The driver (eeprom24.h / eeprom24.cpp) is a thin layer over the STM32
    HAL: every method issues blocking HAL calls on an I2C handle.  The HAL
    and the chip behind it are not part of the repository, so they appear
    here as a [Board]: an oracle that answers every HAL call from the
    current [World] (tick counter and the transactions issued so far).
    The driver methods are then ordinary functions that thread the
    [World] through the HAL calls in the order the C++ code makes them. *)

From Stdlib Require Import ZArith Lia Bool.
From stdpp Require Import base list.

Local Open Scope Z_scope.

(** ** Fixed-width integers *)

Definition u8 (x : Z) : Z := x mod 256.
Definition u16 (x : Z) : Z := x mod 65536.
Definition u32 (x : Z) : Z := x mod 4294967296.

Definition UINT32_MAX : Z := 4294967295.

(** ** The HAL interface *)

Inductive HAL_StatusTypeDef : Type :=
  | HAL_OK
  | HAL_ERROR
  | HAL_BUSY
  | HAL_TIMEOUT.

(** [retval == HAL_OK] *)
Definition is_HAL_OK (s : HAL_StatusTypeDef) : bool :=
  match s with
  | HAL_OK => true
  | _ => false
  end.

(** What the bus and the clock see, in the order it happened. *)
Inductive BusEvent : Type :=
  | IsDeviceReady (hi2c DevAddress Trials Timeout : Z)
  | Delay (ms : Z)
  | MasterTransmit (hi2c DevAddress : Z) (frame : list Z) (Timeout : Z)
  | MasterReceive (hi2c DevAddress Size Timeout : Z).

Record World : Type := mkWorld {
  tick : Z;                 (* the uint32_t counter behind HAL_GetTick *)
  trace : list BusEvent     (* oldest event first *)
}.

(** The behaviour of everything below the driver.  Each answer may depend
    on the whole history, so any deterministic transport is an instance.
    [delay_ticks w ms] is how far the tick moves during [HAL_Delay(ms)];
    probes and transfers are taken to be instantaneous, which is the fixed
    polling interval of the specification. *)
Record Board : Type := mkBoard {
  probe_status : World -> Z -> HAL_StatusTypeDef;
  delay_ticks : World -> Z -> Z;
  transmit_status : World -> Z -> list Z -> HAL_StatusTypeDef;
  receive_result : World -> Z -> Z -> HAL_StatusTypeDef * list Z
}.

Definition log (e : BusEvent) (w : World) : World :=
  mkWorld (tick w) (trace w ++ [e]).

(** Bytes the receive stored, laid over the caller's buffer. *)
Definition overlay (stored buf : list Z) : list Z :=
  stored ++ drop (length stored) buf.

(** The prototypes are those of the STM32Cube HAL; an argument is
    converted to the width of its parameter on entry. *)
Section HAL.
Variable board : Board.

Definition HAL_GetTick (w : World) : Z := tick w.

(** [void HAL_Delay(uint32_t Delay)] *)
Definition HAL_Delay (ms : Z) (w : World) : World :=
  mkWorld (u32 (tick w + delay_ticks board w ms)) (trace w ++ [Delay ms]).

(** [HAL_I2C_IsDeviceReady(hi2c, uint16_t DevAddress, uint32_t Trials,
    uint32_t Timeout)] *)
Definition HAL_I2C_IsDeviceReady (hi2c DevAddress Trials Timeout : Z)
    (w : World) : HAL_StatusTypeDef * World :=
  let DevAddress := u16 DevAddress in
  (probe_status board w DevAddress,
   log (IsDeviceReady hi2c DevAddress Trials Timeout) w).

(** [HAL_I2C_Master_Transmit(hi2c, uint16_t DevAddress, uint8_t *pData,
    uint16_t Size, uint32_t Timeout)]: the first [Size] bytes at [pData]
    go out as one frame. *)
Definition HAL_I2C_Master_Transmit (hi2c DevAddress : Z) (pData : list Z)
    (Size Timeout : Z) (w : World) : HAL_StatusTypeDef * World :=
  let DevAddress := u16 DevAddress in
  let frame := take (Z.to_nat (u16 Size)) pData in
  (transmit_status board w DevAddress frame,
   log (MasterTransmit hi2c DevAddress frame Timeout) w).

(** [HAL_I2C_Master_Receive(hi2c, uint16_t DevAddress, uint8_t *pData,
    uint16_t Size, uint32_t Timeout)]: at most [Size] bytes are stored
    at [pData]; the buffer is returned with them laid over it. *)
Definition HAL_I2C_Master_Receive (hi2c DevAddress : Z) (pData : list Z)
    (Size Timeout : Z) (w : World) : (HAL_StatusTypeDef * list Z) * World :=
  let DevAddress := u16 DevAddress in
  let Size := u16 Size in
  let '(st, bytes) := receive_result board w DevAddress Size in
  ((st, overlay (take (Z.to_nat Size) bytes) pData),
   log (MasterReceive hi2c DevAddress Size Timeout) w).
End HAL.

(** ** The driver object *)

(** [#define EEPROM24_I2C_TIMEOUT 25] *)
Definition EEPROM24_I2C_TIMEOUT : Z := 25.

(** [static constexpr uint8_t DEFAULT_ADDRESS = 0b1010000] *)
Definition DEFAULT_ADDRESS : Z := 80.

Record Eeprom24 : Type := mkEeprom24 {
  m_i2c : Z;               (* I2C_HandleTypeDef* const *)
  m_i2c_address : Z;       (* const uint8_t *)
  m_sizeInBytes : Z;       (* const uint32_t *)
  m_pageSizeInBytes : Z    (* const uint16_t *)
}.

Definition getSizeInBytes (self : Eeprom24) : Z := m_sizeInBytes self.
Definition getPageSizeInBytes (self : Eeprom24) : Z := m_pageSizeInBytes self.

(** A run of the copy loop either completes or leaves an array. *)
Inductive Region : Type :=
  | StagingBuffer     (* the local [tmp] *)
  | CallerData.       (* the caller's [data] *)

Inductive Outcome (A : Type) : Type :=
  | Done (a : A)
  | OutOfBounds (r : Region) (index : Z).
Arguments Done {A} a.
Arguments OutOfBounds {A} r index.

(** [for (uint16_t i = 0; i < length; i++) tmp[i + off] = data[i];]
    [n] counts the iterations left; [i < length <= 65535], so [i++] never
    wraps. *)
Fixpoint copy_loop (n : nat) (i off : Z) (data tmp : list Z)
    : Outcome (list Z) :=
  match n with
  | O => Done tmp
  | S n' =>
      match data !! Z.to_nat i with
      | None => OutOfBounds CallerData i
      | Some d =>
          if Z.to_nat (i + off) <? length tmp
          then copy_loop n' (i + 1) off data (<[Z.to_nat (i + off) := d]> tmp)
          else OutOfBounds StagingBuffer (i + off)
      end
  end%nat.

Section Driver.
Variable board : Board.

(** [bool Eeprom24::init()] *)
Definition init (self : Eeprom24) (w : World) : bool * World :=
  let '(retval, w) :=
    HAL_I2C_IsDeviceReady board (m_i2c self)
      (Z.shiftl (m_i2c_address self) 1) 2 100 w in
  (is_HAL_OK retval, w).

(** [bool Eeprom24::isReady(void) const] *)
Definition isReady (self : Eeprom24) (w : World) : bool * World :=
  let '(retval, w) :=
    HAL_I2C_IsDeviceReady board (m_i2c self)
      (Z.shiftl (m_i2c_address self) 1) 1 100 w in
  (is_HAL_OK retval, w).

(** The [while (!isReady())] loop of [waitForReady]; one unit of fuel
    per probe, [None] when the fuel runs out before the loop exits. *)
Fixpoint waitForReady_loop (fuel : nat) (self : Eeprom24)
    (start timeout : Z) (w : World) : option (bool * World) :=
  match fuel with
  | O => None
  | S fuel' =>
      let '(ready, w) := isReady self w in
      if ready then Some (true, w)
      else
        let w := HAL_Delay board 1 w in
        if u32 (HAL_GetTick w - start) >? timeout then Some (false, w)
        else waitForReady_loop fuel' self start timeout w
  end.

(** [bool Eeprom24::waitForReady(uint32_t timeout) const] *)
Definition waitForReady (fuel : nat) (self : Eeprom24) (timeout : Z)
    (w : World) : option (bool * World) :=
  let start := HAL_GetTick w in
  waitForReady_loop fuel self start timeout w.

(** [bool Eeprom24::writeByte_internal16(uint8_t devAddress,
    uint16_t byteAddress, uint8_t data)] *)
Definition writeByte_internal16 (self : Eeprom24)
    (devAddress byteAddress data : Z) (w : World) : bool * World :=
  let tmp := [u8 (Z.shiftr byteAddress 8); u8 (Z.land byteAddress 255); data] in
  let '(retval, w) :=
    HAL_I2C_Master_Transmit board (m_i2c self) (Z.shiftl devAddress 1)
      tmp 3 EEPROM24_I2C_TIMEOUT w in
  (is_HAL_OK retval, w).

(** [bool Eeprom24::writeByte_internal8(uint8_t devAddress,
    uint8_t byteAddress, uint8_t data)] *)
Definition writeByte_internal8 (self : Eeprom24)
    (devAddress byteAddress data : Z) (w : World) : bool * World :=
  let tmp := [u8 (Z.shiftr byteAddress 8); u8 (Z.land byteAddress 255); data] in
  let '(retval, w) :=
    HAL_I2C_Master_Transmit board (m_i2c self) (Z.shiftl devAddress 1)
      tmp 3 EEPROM24_I2C_TIMEOUT w in
  (is_HAL_OK retval, w).

(** [uint8_t Eeprom24::readByte_internal16(uint8_t devAddress,
    uint16_t byteAddress)] *)
Definition readByte_internal16 (self : Eeprom24)
    (devAddress byteAddress : Z) (w : World) : Z * World :=
  let tmp := [u8 (Z.shiftr byteAddress 8); u8 (Z.land byteAddress 255)] in
  let '(_, w) :=
    HAL_I2C_Master_Transmit board (m_i2c self) (Z.shiftl devAddress 1)
      tmp 2 25 w in
  let retval := [0] in
  let '((_, retval), w) :=
    HAL_I2C_Master_Receive board (m_i2c self) (Z.shiftl devAddress 1)
      retval 1 EEPROM24_I2C_TIMEOUT w in
  (nth 0 retval 0, w).

(** [uint8_t Eeprom24::readByte_internal8(uint8_t devAddress,
    uint8_t byteAddress)] *)
Definition readByte_internal8 (self : Eeprom24)
    (devAddress byteAddress : Z) (w : World) : Z * World :=
  let '(_, w) :=
    HAL_I2C_Master_Transmit board (m_i2c self) (Z.shiftl devAddress 1)
      [byteAddress] 1 25 w in
  let retval := [0] in
  let '((_, retval), w) :=
    HAL_I2C_Master_Receive board (m_i2c self) (Z.shiftl devAddress 1)
      retval 1 EEPROM24_I2C_TIMEOUT w in
  (nth 0 retval 0, w).

(** [bool Eeprom24::writePage_internal16(uint8_t devAddress,
    uint16_t byteAddress, uint8_t* data, uint16_t length)].
    [tmp] is a variable-length array of [m_pageSizeInBytes + 2] bytes;
    its two first cells always exist.  Its other cells start out
    indeterminate (0 here): the transmit reads none the loop has not
    stored. *)
Definition writePage_internal16 (self : Eeprom24)
    (devAddress byteAddress : Z) (data : list Z) (length : Z) (w : World)
    : Outcome (bool * World) :=
  let tmp := replicate (Z.to_nat (m_pageSizeInBytes self + 2)) 0 in
  let tmp := <[0%nat := u8 (Z.shiftr byteAddress 8)]> tmp in
  let tmp := <[1%nat := u8 byteAddress]> tmp in
  match copy_loop (Z.to_nat length) 0 2 data tmp with
  | OutOfBounds r i => OutOfBounds r i
  | Done tmp =>
      let '(retval, w) :=
        HAL_I2C_Master_Transmit board (m_i2c self) (Z.shiftl devAddress 1)
          tmp (length + 2) EEPROM24_I2C_TIMEOUT w in
      Done (is_HAL_OK retval, w)
  end.

(** [bool Eeprom24::writePage_internal8(uint8_t devAddress,
    uint8_t byteAddress, uint8_t* data, uint16_t length)] *)
Definition writePage_internal8 (self : Eeprom24)
    (devAddress byteAddress : Z) (data : list Z) (length : Z) (w : World)
    : Outcome (bool * World) :=
  let tmp := replicate (Z.to_nat (m_pageSizeInBytes self + 1)) 0 in
  let tmp := <[0%nat := byteAddress]> tmp in
  match copy_loop (Z.to_nat length) 0 1 data tmp with
  | OutOfBounds r i => OutOfBounds r i
  | Done tmp =>
      let '(retval, w) :=
        HAL_I2C_Master_Transmit board (m_i2c self) (Z.shiftl devAddress 1)
          tmp (length + 1) EEPROM24_I2C_TIMEOUT w in
      Done (is_HAL_OK retval, w)
  end.

(** [bool Eeprom24::readPage_internal16(uint8_t devAddress,
    uint16_t byteAddress, uint8_t* data, uint16_t length)]; the second
    component is the caller's buffer after the call. *)
Definition readPage_internal16 (self : Eeprom24)
    (devAddress byteAddress : Z) (data : list Z) (length : Z) (w : World)
    : (bool * list Z) * World :=
  let tmp := [u8 (Z.shiftr byteAddress 8); u8 (Z.land byteAddress 255)] in
  let '(_, w) :=
    HAL_I2C_Master_Transmit board (m_i2c self) (Z.shiftl devAddress 1)
      tmp 2 EEPROM24_I2C_TIMEOUT w in
  let '((retval, data), w) :=
    HAL_I2C_Master_Receive board (m_i2c self) (Z.shiftl devAddress 1)
      data length EEPROM24_I2C_TIMEOUT w in
  ((is_HAL_OK retval, data), w).

(** [bool Eeprom24::readPage_internal8(uint8_t devAddress,
    uint8_t byteAddress, uint8_t* data, uint16_t length)] *)
Definition readPage_internal8 (self : Eeprom24)
    (devAddress byteAddress : Z) (data : list Z) (length : Z) (w : World)
    : (bool * list Z) * World :=
  let '(_, w) :=
    HAL_I2C_Master_Transmit board (m_i2c self) (Z.shiftl devAddress 1)
      [byteAddress] 1 EEPROM24_I2C_TIMEOUT w in
  let '((retval, data), w) :=
    HAL_I2C_Master_Receive board (m_i2c self) (Z.shiftl devAddress 1)
      data length EEPROM24_I2C_TIMEOUT w in
  ((is_HAL_OK retval, data), w).
End Driver.

(** ** The concrete chip class of the header *)

(** [Eeprom24(I2C_HandleTypeDef* i2c, uint8_t address, uint32_t size,
    uint16_t page)] *)
Definition Eeprom24_ctor (i2c address size page : Z) : Eeprom24 :=
  mkEeprom24 i2c address size page.

Module Eeprom24_512.
(** [Eeprom24_512(i2c, address = DEFAULT_ADDRESS)] *)
Definition ctor (i2c address : Z) : Eeprom24 :=
  Eeprom24_ctor i2c address 65535 128.

(** [Eeprom24_512(i2c, bool A0, bool A1, bool A2)] *)
Definition ctor_pins (i2c : Z) (A0 A1 A2 : bool) : Eeprom24 :=
  Eeprom24_ctor i2c
    (u8 (Z.lor (Z.lor (Z.lor DEFAULT_ADDRESS (Z.b2z A0))
                      (Z.shiftl (Z.b2z A1) 1))
               (Z.shiftl (Z.b2z A2) 2)))
    65535 128.

Section Methods.
Variable board : Board.

Definition writeByte (self : Eeprom24) (address data : Z) (w : World) :=
  writeByte_internal16 board self (m_i2c_address self) address data w.

Definition readByte (self : Eeprom24) (address : Z) (w : World) :=
  readByte_internal16 board self (m_i2c_address self) address w.

Definition writePage (self : Eeprom24) (address : Z) (data : list Z)
    (length : Z) (w : World) :=
  writePage_internal16 board self (m_i2c_address self) address data length w.

Definition readPage (self : Eeprom24) (address : Z) (data : list Z)
    (length : Z) (w : World) :=
  readPage_internal16 board self (m_i2c_address self) address data length w.
End Methods.
End Eeprom24_512.

(** A client program is a sequence of calls on one object.  Every member
    is [const], so a method receives the object and hands back only its
    result and the world; [perform] pairs the object the next call will
    see with that world.  A call that runs out of fuel or leaves an array
    has no successor state. *)
Inductive Call : Type :=
  | CallInit
  | CallIsReady
  | CallWaitForReady (fuel : nat) (timeout : Z)
  | CallGetSizeInBytes
  | CallGetPageSizeInBytes
  | CallWriteByte (address data : Z)
  | CallReadByte (address : Z)
  | CallWritePage (address : Z) (data : list Z) (length : Z)
  | CallReadPage (address : Z) (data : list Z) (length : Z).

Definition perform (board : Board) (c : Call) (s : Eeprom24 * World)
    : option (Eeprom24 * World) :=
  let '(self, w) := s in
  match c with
  | CallInit => Some (self, snd (init board self w))
  | CallIsReady => Some (self, snd (isReady board self w))
  | CallWaitForReady fuel timeout =>
      match waitForReady board fuel self timeout w with
      | Some (_, w) => Some (self, w)
      | None => None
      end
  | CallGetSizeInBytes => Some (self, w)
  | CallGetPageSizeInBytes => Some (self, w)
  | CallWriteByte address data =>
      Some (self, snd (Eeprom24_512.writeByte board self address data w))
  | CallReadByte address =>
      Some (self, snd (Eeprom24_512.readByte board self address w))
  | CallWritePage address data length =>
      match Eeprom24_512.writePage board self address data length w with
      | Done (_, w) => Some (self, w)
      | OutOfBounds _ _ => None
      end
  | CallReadPage address data length =>
      Some (self, snd (Eeprom24_512.readPage board self address data length w))
  end.

Fixpoint run (board : Board) (cs : list Call) (s : Eeprom24 * World)
    : option (Eeprom24 * World) :=
  match cs with
  | [] => Some s
  | c :: cs =>
      match perform board c s with
      | Some s => run board cs s
      | None => None
      end
  end.

(** ** The address prefix, as the specification words it *)

Inductive AddressingWidth : Type :=
  | EightBit
  | SixteenBit.

(** The low byte for [EightBit]; high byte then low byte for
    [SixteenBit]. *)
Definition AddressCodec_encode (width : AddressingWidth) (offset : Z)
    : list Z :=
  match width with
  | EightBit => [offset mod 256]
  | SixteenBit => [(offset / 256) mod 256; offset mod 256]
  end.

(** ** Simulated transports *)

Fixpoint count_probes (t : list BusEvent) : nat :=
  match t with
  | [] => O
  | IsDeviceReady _ _ _ _ :: t => S (count_probes t)
  | _ :: t => count_probes t
  end.

(** Every transaction succeeds, nothing is received, [HAL_Delay(ms)]
    takes exactly [ms] ticks. *)
Definition ideal_board : Board :=
  mkBoard (fun _ _ => HAL_OK) (fun _ ms => ms)
          (fun _ _ _ => HAL_OK) (fun _ _ _ => (HAL_OK, [])).

(** The chip ignores the first [k] probes and acknowledges from then on. *)
Definition ready_after (k : Z) : Board :=
  mkBoard
    (fun w _ => if Z.of_nat (count_probes (trace w)) <? k
                then HAL_ERROR else HAL_OK)
    (fun _ ms => ms)
    (fun _ _ _ => HAL_OK) (fun _ _ _ => (HAL_OK, [])).

(** The chip never acknowledges a probe. *)
Definition never_ready : Board :=
  mkBoard (fun _ _ => HAL_ERROR) (fun _ ms => ms)
          (fun _ _ _ => HAL_OK) (fun _ _ _ => (HAL_OK, [])).

(** Every transmit is refused, every receive delivers [bytes]. *)
Definition deaf_board (bytes : list Z) : Board :=
  mkBoard (fun _ _ => HAL_OK) (fun _ ms => ms)
          (fun _ _ _ => HAL_ERROR) (fun _ _ _ => (HAL_OK, bytes)).

(** [board] with the transmit answers replaced by [f]. *)
Definition with_transmit_status
    (f : World -> Z -> list Z -> HAL_StatusTypeDef) (board : Board) : Board :=
  mkBoard (probe_status board) (delay_ticks board) f (receive_result board).

(** The trace of [j] unanswered polls of [waitForReady] on [self]. *)
Definition poll_event (self : Eeprom24) : BusEvent :=
  IsDeviceReady (m_i2c self) (u16 (Z.shiftl (m_i2c_address self) 1)) 1 100.

Fixpoint poll (self : Eeprom24) (j : nat) : list BusEvent :=
  match j with
  | O => []
  | S j => poll self j ++ [poll_event self; Delay 1]
  end.

(** A 24x512 at the default address on handle 0, and a chip with one
    address byte and 8-byte pages as the 8-bit overloads serve. *)
Definition chip512 : Eeprom24 := Eeprom24_512.ctor 0 DEFAULT_ADDRESS.
Definition chip02 : Eeprom24 := Eeprom24_ctor 0 DEFAULT_ADDRESS 256 8.

Definition boot : World := mkWorld 0 [].

(** The [DevAddress] a method puts on the wire for [devAddress]:
    [devAddress << 1] through the HAL's [uint16_t] parameter. *)
Definition wire_address (devAddress : Z) : Z := u16 (Z.shiftl devAddress 1).

(** Where [waitForReady] leaves a chip that acknowledges its probe number
    [k] (counted from 0), started at tick [t0] with a fresh trace: after
    [k] unanswered polls and the probe that is answered, or after
    [timeout + 1] unanswered polls. *)
Definition polled_out (self : Eeprom24) (t0 k timeout : Z) : bool * World :=
  if (k <=? timeout) || (timeout =? UINT32_MAX)
  then (true, mkWorld (u32 (t0 + k))
                (poll self (Z.to_nat k) ++ [poll_event self]))
  else (false, mkWorld (u32 (t0 + timeout + 1))
                 (poll self (Z.to_nat (timeout + 1)))).

(** The world once a read has sent its address prefix [prefix]. *)
Definition addressed (self : Eeprom24) (dev : Z) (w : World)
    (prefix : list Z) : World :=
  log (MasterTransmit (m_i2c self) (wire_address dev) prefix 25) w.

(** What one completed [writePage] looks like from outside: a single
    transmit of [frame], answered by the board. *)
Definition transmitted (board : Board) (self : Eeprom24) (dev : Z) (w : World)
    (frame : list Z) : Outcome (bool * World) :=
  Done (is_HAL_OK (transmit_status board w (wire_address dev) frame),
        log (MasterTransmit (m_i2c self) (wire_address dev) frame 25) w).

(** [r] is what a call started in [w] leaves when it made exactly one
    transmit and reported that transmit's status. *)
Definition one_transmit (board : Board) (w : World) (r : bool * World) : Prop :=
  exists hi2c DevAddress frame Timeout,
    snd r = log (MasterTransmit hi2c DevAddress frame Timeout) w
    /\ fst r = is_HAL_OK (transmit_status board w DevAddress frame).

(** ** The earlier revision of the driver

    The second source file is an earlier state of eeprom24.cpp.  It
    differs in two places: [init] receives the I2C handle and stores it
    in the object, and every HAL call gets the device address as it is,
    where the later file passes it shifted left by one. *)

Module Part000.
Section Driver.
Variable board : Board.

(** [bool Eeprom24::init(I2C_HandleTypeDef* i2c)]; the object comes back
    with [m_i2c] assigned. *)
Definition init (self : Eeprom24) (i2c : Z) (w : World)
    : (bool * Eeprom24) * World :=
  let self :=
    mkEeprom24 i2c (m_i2c_address self) (m_sizeInBytes self)
      (m_pageSizeInBytes self) in
  let '(retval, w) :=
    HAL_I2C_IsDeviceReady board (m_i2c self) (m_i2c_address self) 2 100 w in
  ((is_HAL_OK retval, self), w).

(** [bool Eeprom24::isReady(void) const] *)
Definition isReady (self : Eeprom24) (w : World) : bool * World :=
  let '(retval, w) :=
    HAL_I2C_IsDeviceReady board (m_i2c self) (m_i2c_address self) 1 100 w in
  (is_HAL_OK retval, w).

Fixpoint waitForReady_loop (fuel : nat) (self : Eeprom24)
    (start timeout : Z) (w : World) : option (bool * World) :=
  match fuel with
  | O => None
  | S fuel' =>
      let '(ready, w) := isReady self w in
      if ready then Some (true, w)
      else
        let w := HAL_Delay board 1 w in
        if u32 (HAL_GetTick w - start) >? timeout then Some (false, w)
        else waitForReady_loop fuel' self start timeout w
  end.

(** [bool Eeprom24::waitForReady(uint32_t timeout) const] *)
Definition waitForReady (fuel : nat) (self : Eeprom24) (timeout : Z)
    (w : World) : option (bool * World) :=
  let start := HAL_GetTick w in
  waitForReady_loop fuel self start timeout w.

(** [writeByte_internal(uint8_t devAddress, uint16_t byteAddress,
    uint8_t data)] *)
Definition writeByte_internal16 (self : Eeprom24)
    (devAddress byteAddress data : Z) (w : World) : bool * World :=
  let tmp := [u8 (Z.shiftr byteAddress 8); u8 (Z.land byteAddress 255); data] in
  let '(retval, w) :=
    HAL_I2C_Master_Transmit board (m_i2c self) devAddress
      tmp 3 EEPROM24_I2C_TIMEOUT w in
  (is_HAL_OK retval, w).

(** [writeByte_internal(uint8_t devAddress, uint8_t byteAddress,
    uint8_t data)] *)
Definition writeByte_internal8 (self : Eeprom24)
    (devAddress byteAddress data : Z) (w : World) : bool * World :=
  let tmp := [u8 (Z.shiftr byteAddress 8); u8 (Z.land byteAddress 255); data] in
  let '(retval, w) :=
    HAL_I2C_Master_Transmit board (m_i2c self) devAddress
      tmp 3 EEPROM24_I2C_TIMEOUT w in
  (is_HAL_OK retval, w).

(** [readByte_internal(uint8_t devAddress, uint16_t byteAddress)] *)
Definition readByte_internal16 (self : Eeprom24)
    (devAddress byteAddress : Z) (w : World) : Z * World :=
  let tmp := [u8 (Z.shiftr byteAddress 8); u8 (Z.land byteAddress 255)] in
  let '(_, w) :=
    HAL_I2C_Master_Transmit board (m_i2c self) devAddress tmp 2 25 w in
  let retval := [0] in
  let '((_, retval), w) :=
    HAL_I2C_Master_Receive board (m_i2c self) devAddress
      retval 1 EEPROM24_I2C_TIMEOUT w in
  (nth 0 retval 0, w).

(** [readByte_internal(uint8_t devAddress, uint8_t byteAddress)] *)
Definition readByte_internal8 (self : Eeprom24)
    (devAddress byteAddress : Z) (w : World) : Z * World :=
  let '(_, w) :=
    HAL_I2C_Master_Transmit board (m_i2c self) devAddress
      [byteAddress] 1 25 w in
  let retval := [0] in
  let '((_, retval), w) :=
    HAL_I2C_Master_Receive board (m_i2c self) devAddress
      retval 1 EEPROM24_I2C_TIMEOUT w in
  (nth 0 retval 0, w).

(** [writePage_internal(uint8_t devAddress, uint16_t byteAddress,
    uint8_t* data, uint16_t length)] *)
Definition writePage_internal16 (self : Eeprom24)
    (devAddress byteAddress : Z) (data : list Z) (length : Z) (w : World)
    : Outcome (bool * World) :=
  let tmp := replicate (Z.to_nat (m_pageSizeInBytes self + 2)) 0 in
  let tmp := <[0%nat := u8 (Z.shiftr byteAddress 8)]> tmp in
  let tmp := <[1%nat := u8 byteAddress]> tmp in
  match copy_loop (Z.to_nat length) 0 2 data tmp with
  | OutOfBounds r i => OutOfBounds r i
  | Done tmp =>
      let '(retval, w) :=
        HAL_I2C_Master_Transmit board (m_i2c self) devAddress
          tmp (length + 2) EEPROM24_I2C_TIMEOUT w in
      Done (is_HAL_OK retval, w)
  end.

(** [writePage_internal(uint8_t devAddress, uint8_t byteAddress,
    uint8_t* data, uint16_t length)] *)
Definition writePage_internal8 (self : Eeprom24)
    (devAddress byteAddress : Z) (data : list Z) (length : Z) (w : World)
    : Outcome (bool * World) :=
  let tmp := replicate (Z.to_nat (m_pageSizeInBytes self + 1)) 0 in
  let tmp := <[0%nat := byteAddress]> tmp in
  match copy_loop (Z.to_nat length) 0 1 data tmp with
  | OutOfBounds r i => OutOfBounds r i
  | Done tmp =>
      let '(retval, w) :=
        HAL_I2C_Master_Transmit board (m_i2c self) devAddress
          tmp (length + 1) EEPROM24_I2C_TIMEOUT w in
      Done (is_HAL_OK retval, w)
  end.

(** [readPage_internal(uint8_t devAddress, uint16_t byteAddress,
    uint8_t* data, uint16_t length)] *)
Definition readPage_internal16 (self : Eeprom24)
    (devAddress byteAddress : Z) (data : list Z) (length : Z) (w : World)
    : (bool * list Z) * World :=
  let tmp := [u8 (Z.shiftr byteAddress 8); u8 (Z.land byteAddress 255)] in
  let '(_, w) :=
    HAL_I2C_Master_Transmit board (m_i2c self) devAddress
      tmp 2 EEPROM24_I2C_TIMEOUT w in
  let '((retval, data), w) :=
    HAL_I2C_Master_Receive board (m_i2c self) devAddress
      data length EEPROM24_I2C_TIMEOUT w in
  ((is_HAL_OK retval, data), w).

(** [readPage_internal(uint8_t devAddress, uint8_t byteAddress,
    uint8_t* data, uint16_t length)] *)
Definition readPage_internal8 (self : Eeprom24)
    (devAddress byteAddress : Z) (data : list Z) (length : Z) (w : World)
    : (bool * list Z) * World :=
  let '(_, w) :=
    HAL_I2C_Master_Transmit board (m_i2c self) devAddress
      [byteAddress] 1 EEPROM24_I2C_TIMEOUT w in
  let '((retval, data), w) :=
    HAL_I2C_Master_Receive board (m_i2c self) devAddress
      data length EEPROM24_I2C_TIMEOUT w in
  ((is_HAL_OK retval, data), w).
End Driver.
End Part000.


(** ** Whom a bus event is meant for *)

Definition meant_for (hi2c DevAddress : Z) (e : BusEvent) : Prop :=
  match e with
  | IsDeviceReady h d _ _ => h = hi2c /\ d = DevAddress
  | Delay _ => True
  | MasterTransmit h d _ _ => h = hi2c /\ d = DevAddress
  | MasterReceive h d _ _ => h = hi2c /\ d = DevAddress
  end.

(** ** A simulated 24x512

    The chip as the comments of the driver describe it: two address
    bytes, 128-byte pages over 65536 cells, a write that runs past the
    end of its page continues at the start of that page, and after a
    write the chip stays off the bus for [twr] ticks.  It is the only
    device on the bus, so it takes every event as its own. *)

Record Chip : Type := mkChip {
  cells : Z -> Z;
  cursor : Z;        (* where the next read starts *)
  lockup : Z         (* ticks until the last write is committed *)
}.

(** An erased memory reads 255 everywhere. *)
Definition blank : Chip := mkChip (fun _ => 255) 0 0.

Definition next_in_page (a : Z) : Z :=
  a - a mod 128 + (a mod 128 + 1) mod 128.

Fixpoint store_page (a : Z) (payload : list Z) (m : Z -> Z)
    : (Z -> Z) * Z :=
  match payload with
  | [] => (m, a)
  | b :: rest =>
      store_page (next_in_page a) rest (fun x => if x =? a then b else m x)
  end.

Definition chip_step (twr : Z) (c : Chip) (e : BusEvent) : Chip :=
  match e with
  | IsDeviceReady _ _ _ _ => c
  | Delay ms => mkChip (cells c) (cursor c) (Z.max 0 (lockup c - ms))
  | MasterTransmit _ _ frame _ =>
      if 0 <? lockup c then c
      else
        match frame with
        | hi :: lo :: payload =>
            let '(m, a) := store_page (256 * hi + lo) payload (cells c) in
            mkChip m a (match payload with [] => lockup c | _ => twr end)
        | _ => c
        end
  | MasterReceive _ _ Size _ =>
      if 0 <? lockup c then c
      else mkChip (cells c) ((cursor c + Size) mod 65536) (lockup c)
  end.

Definition chip_of (twr : Z) (t : list BusEvent) : Chip :=
  fold_left (chip_step twr) t blank.

Definition read_cells (c : Chip) (n : Z) : list Z :=
  map (fun i => cells c ((cursor c + Z.of_nat i) mod 65536))
      (seq 0 (Z.to_nat n)).

(** The chip behind the HAL: it acknowledges nothing while it commits a
    write, and [HAL_Delay(ms)] takes exactly [ms] ticks. *)
Definition eeprom (twr : Z) : Board :=
  mkBoard
    (fun w _ => if 0 <? lockup (chip_of twr (trace w))
                then HAL_ERROR else HAL_OK)
    (fun _ ms => ms)
    (fun w _ _ => if 0 <? lockup (chip_of twr (trace w))
                  then HAL_ERROR else HAL_OK)
    (fun w _ Size => if 0 <? lockup (chip_of twr (trace w))
                     then (HAL_ERROR, [])
                     else (HAL_OK, read_cells (chip_of twr (trace w)) Size)).

(** * Properties *)

(** ** Integer conversions *)

Lemma u8_range (x : Z) : 0 <= u8 x < 256.
Proof. unfold u8. apply Z.mod_pos_bound. lia. Qed.

Lemma u16_range (x : Z) : 0 <= u16 x < 65536.
Proof. unfold u16. apply Z.mod_pos_bound. lia. Qed.

Lemma u32_range (x : Z) : 0 <= u32 x <= UINT32_MAX.
Proof.
  unfold u32, UINT32_MAX.
  pose proof (Z.mod_pos_bound x 4294967296). lia.
Qed.

Lemma u16_small (x : Z) : 0 <= x < 65536 -> u16 x = x.
Proof. intros H. unfold u16. apply Z.mod_small. exact H. Qed.

Lemma u32_small (x : Z) : 0 <= x <= UINT32_MAX -> u32 x = x.
Proof. unfold u32, UINT32_MAX. intros H. apply Z.mod_small. lia. Qed.

Lemma high_byte (a : Z) : u8 (Z.shiftr a 8) = (a / 256) mod 256.
Proof. unfold u8. rewrite Z.shiftr_div_pow2 by lia. reflexivity. Qed.

Lemma low_byte (a : Z) : u8 (Z.land a 255) = a mod 256.
Proof.
  unfold u8. change 255 with (Z.ones 8).
  rewrite Z.land_ones by lia. change (2 ^ 8) with 256.
  apply Z.mod_mod. lia.
Qed.

Lemma high_byte_of_u8 (a : Z) : u8 (Z.shiftr (u8 a) 8) = 0.
Proof.
  rewrite high_byte. pose proof (u8_range a).
  rewrite Z.div_small by lia. reflexivity.
Qed.

Lemma low_byte_of_u8 (a : Z) : u8 (Z.land (u8 a) 255) = u8 a.
Proof. rewrite low_byte. unfold u8. apply Z.mod_mod. lia. Qed.

(** The elapsed time the loop computes after a delay of [d] ticks, from
    the elapsed time before it. *)
Lemma elapsed_after_delay (t start d : Z) :
  u32 (u32 (t + d) - start) = u32 (u32 (t - start) + d).
Proof.
  unfold u32.
  rewrite Zminus_mod_idemp_l, Zplus_mod_idemp_l.
  f_equal. lia.
Qed.

Lemma count_probes_app (t1 t2 : list BusEvent) :
  count_probes (t1 ++ t2) = (count_probes t1 + count_probes t2)%nat.
Proof.
  induction t1 as [|e t1 IH]; simpl; [reflexivity|].
  destruct e; simpl; rewrite IH; reflexivity.
Qed.

Lemma count_probes_poll (self : Eeprom24) (j : nat) :
  count_probes (poll self j) = j.
Proof.
  induction j as [|j IH]; simpl; [reflexivity|].
  rewrite count_probes_app, IH. simpl. lia.
Qed.

(** ** The frames of the sound paths

    Seven of the eight transfer functions put [AddressCodec_encode] of
    the offset at the front of what they transmit.  An 8-bit overload
    receives the offset through its [uint8_t] parameter, hence [u8]. *)

Section Frames.
Variable board : Board.
Variables (self : Eeprom24) (dev offset : Z) (w : World).

Lemma writeByte_internal16_frame (d : Z) :
  trace (snd (writeByte_internal16 board self dev offset d w))
  = trace w ++ [MasterTransmit (m_i2c self) (wire_address dev)
                  (AddressCodec_encode SixteenBit offset ++ [d]) 25].
Proof.
  unfold writeByte_internal16, HAL_I2C_Master_Transmit; simpl.
  rewrite high_byte, low_byte. reflexivity.
Qed.

Lemma readByte_internal16_frames :
  trace (snd (readByte_internal16 board self dev offset w))
  = trace w ++ [MasterTransmit (m_i2c self) (wire_address dev)
                  (AddressCodec_encode SixteenBit offset) 25;
                MasterReceive (m_i2c self) (wire_address dev) 1 25].
Proof.
  unfold readByte_internal16, HAL_I2C_Master_Transmit,
    HAL_I2C_Master_Receive; simpl.
  destruct (receive_result _ _ _ _) as [st bytes]; simpl.
  rewrite high_byte, low_byte, <- app_assoc. reflexivity.
Qed.

Lemma readByte_internal8_frames :
  trace (snd (readByte_internal8 board self dev (u8 offset) w))
  = trace w ++ [MasterTransmit (m_i2c self) (wire_address dev)
                  (AddressCodec_encode EightBit offset) 25;
                MasterReceive (m_i2c self) (wire_address dev) 1 25].
Proof.
  unfold readByte_internal8, HAL_I2C_Master_Transmit,
    HAL_I2C_Master_Receive; simpl.
  destruct (receive_result _ _ _ _) as [st bytes]; simpl.
  rewrite <- app_assoc. reflexivity.
Qed.

Lemma readPage_internal16_frames (data : list Z) (length : Z) :
  trace (snd (readPage_internal16 board self dev offset data length w))
  = trace w ++ [MasterTransmit (m_i2c self) (wire_address dev)
                  (AddressCodec_encode SixteenBit offset) 25;
                MasterReceive (m_i2c self) (wire_address dev) (u16 length) 25].
Proof.
  unfold readPage_internal16, HAL_I2C_Master_Transmit,
    HAL_I2C_Master_Receive; simpl.
  destruct (receive_result _ _ _ _) as [st bytes]; simpl.
  rewrite high_byte, low_byte, <- app_assoc. reflexivity.
Qed.

Lemma readPage_internal8_frames (data : list Z) (length : Z) :
  trace (snd (readPage_internal8 board self dev (u8 offset) data length w))
  = trace w ++ [MasterTransmit (m_i2c self) (wire_address dev)
                  (AddressCodec_encode EightBit offset) 25;
                MasterReceive (m_i2c self) (wire_address dev) (u16 length) 25].
Proof.
  unfold readPage_internal8, HAL_I2C_Master_Transmit,
    HAL_I2C_Master_Receive; simpl.
  destruct (receive_result _ _ _ _) as [st bytes]; simpl.
  rewrite <- app_assoc. reflexivity.
Qed.

(** The odd one out: the 8-bit [writeByte] frames the offset as its
    16-bit sibling does, so a zero byte precedes the address byte. *)
Lemma writeByte_internal8_frame (d : Z) :
  trace (snd (writeByte_internal8 board self dev (u8 offset) d w))
  = trace w ++ [MasterTransmit (m_i2c self) (wire_address dev)
                  (0 :: AddressCodec_encode EightBit offset ++ [d]) 25].
Proof.
  unfold writeByte_internal8, HAL_I2C_Master_Transmit; simpl.
  rewrite high_byte_of_u8, low_byte_of_u8. reflexivity.
Qed.
End Frames.

(** ** The copy loop of [writePage] *)

Section CopyLoop.
Variables (data : list Z) (o : nat).

Lemma copy_loop_fits (n : nat) : forall (j : nat) (tmp : list Z),
  (j + n <= length data)%nat ->
  (j + o + n <= length tmp)%nat ->
  copy_loop n (Z.of_nat j) (Z.of_nat o) data tmp
  = Done (take (j + o) tmp ++ take n (drop j data) ++ drop (j + o + n) tmp).
Proof.
  induction n as [|n IH]; intros j tmp Hd Ht; simpl.
  - rewrite Nat.add_0_r, take_drop. reflexivity.
  - rewrite Nat2Z.id.
    destruct (data !! j) as [d|] eqn:E.
    2: { apply lookup_ge_None_1 in E. lia. }
    rewrite <- Nat2Z.inj_add, Nat2Z.id.
    destruct (Nat.ltb_spec (j + o) (length tmp)) as [Hlt|Hge]; [|lia].
    replace (Z.of_nat j + 1) with (Z.of_nat (S j)) by lia.
    rewrite IH by (rewrite ?length_insert; lia).
    f_equal.
    change (S j + o)%nat with (S (j + o)).
    rewrite (take_S_r _ _ d) by (apply list_lookup_insert_eq; exact Hlt).
    rewrite take_insert_ge by lia.
    rewrite drop_insert_lt by lia.
    rewrite (drop_S data d j E). simpl.
    rewrite <- app_assoc. simpl.
    replace (S (j + o + n)) with (j + o + S n)%nat by lia.
    reflexivity.
Qed.

Lemma copy_loop_stays_inside (n : nat) : forall (j : nat) (tmp : list Z),
  (j + o + n <= length tmp)%nat ->
  forall i : Z,
    copy_loop n (Z.of_nat j) (Z.of_nat o) data tmp
    <> OutOfBounds StagingBuffer i.
Proof.
  induction n as [|n IH]; intros j tmp Ht i; simpl; [discriminate|].
  rewrite Nat2Z.id.
  destruct (data !! j) as [d|]; [|discriminate].
  rewrite <- Nat2Z.inj_add, Nat2Z.id.
  destruct (Nat.ltb_spec (j + o) (length tmp)) as [Hlt|Hge]; [|lia].
  replace (Z.of_nat j + 1) with (Z.of_nat (S j)) by lia.
  apply IH. rewrite length_insert. lia.
Qed.

Lemma copy_loop_overruns (n : nat) : forall (j : nat) (tmp : list Z),
  (j + n <= length data)%nat ->
  (j + o <= length tmp)%nat ->
  (length tmp < j + o + n)%nat ->
  copy_loop n (Z.of_nat j) (Z.of_nat o) data tmp
  = OutOfBounds StagingBuffer (Z.of_nat (length tmp)).
Proof.
  induction n as [|n IH]; intros j tmp Hd Hlo Hhi; simpl; [lia|].
  rewrite Nat2Z.id.
  destruct (data !! j) as [d|] eqn:E.
  2: { apply lookup_ge_None_1 in E. lia. }
  rewrite <- Nat2Z.inj_add, Nat2Z.id.
  destruct (Nat.ltb_spec (j + o) (length tmp)) as [Hlt|Hge].
  - replace (Z.of_nat j + 1) with (Z.of_nat (S j)) by lia.
    rewrite IH by (rewrite ?length_insert; lia).
    rewrite length_insert. reflexivity.
  - f_equal. lia.
Qed.
End CopyLoop.

(** The staging buffer once the address bytes are in, for a page of [P]
    bytes: the prefix, then [P] cells the loop has yet to fill. *)
Lemma staging16 (P hi lo : Z) : 0 <= P ->
  <[1%nat := lo]> (<[0%nat := hi]> (replicate (Z.to_nat (P + 2)) 0))
  = [hi; lo] ++ replicate (Z.to_nat P) 0.
Proof.
  intros HP. replace (Z.to_nat (P + 2)) with (S (S (Z.to_nat P))) by lia.
  reflexivity.
Qed.

Lemma staging8 (P lo : Z) : 0 <= P ->
  <[0%nat := lo]> (replicate (Z.to_nat (P + 1)) 0)
  = [lo] ++ replicate (Z.to_nat P) 0.
Proof.
  intros HP. replace (Z.to_nat (P + 1)) with (S (Z.to_nat P)) by lia.
  reflexivity.
Qed.

Lemma copy_into_staging_fits (prefix data : list Z) (n P : nat) :
  (n <= length data)%nat -> (n <= P)%nat ->
  copy_loop n 0 (Z.of_nat (length prefix)) data (prefix ++ replicate P 0)
  = Done (prefix ++ take n data ++ replicate (P - n) 0).
Proof.
  intros Hd HP.
  change 0 with (Z.of_nat 0).
  rewrite copy_loop_fits
    by (rewrite ?length_app, ?length_replicate; simpl; lia).
  simpl. rewrite take_app_length, drop_0.
  rewrite drop_app_add, drop_replicate. reflexivity.
Qed.

Lemma copy_into_staging_overruns (prefix data : list Z) (n P : nat) :
  (n <= length data)%nat -> (P < n)%nat ->
  copy_loop n 0 (Z.of_nat (length prefix)) data (prefix ++ replicate P 0)
  = OutOfBounds StagingBuffer (Z.of_nat (length prefix + P)).
Proof.
  intros Hd HP.
  change 0 with (Z.of_nat 0).
  rewrite copy_loop_overruns
    by (rewrite ?length_app, ?length_replicate; simpl; lia).
  rewrite length_app, length_replicate. reflexivity.
Qed.

(** ** [writePage]: inside and outside the staging buffer *)

Section WritePage.
Variable board : Board.
Variables (self : Eeprom24) (dev offset : Z) (data : list Z) (len : Z).
Variable w : World.

Lemma writePage_internal16_fits :
  0 <= len <= m_pageSizeInBytes self ->
  len <= Z.of_nat (length data) ->
  writePage_internal16 board self dev offset data len w
  = transmitted board self dev w
      (take (Z.to_nat (u16 (len + 2)))
         (AddressCodec_encode SixteenBit offset ++ take (Z.to_nat len) data
          ++ replicate (Z.to_nat (m_pageSizeInBytes self) - Z.to_nat len) 0)).
Proof.
  intros HP Hd. unfold writePage_internal16, transmitted.
  rewrite staging16 by lia.
  pose proof (copy_into_staging_fits
                [u8 (Z.shiftr offset 8); u8 offset] data (Z.to_nat len)
                (Z.to_nat (m_pageSizeInBytes self))) as E.
  change (Z.of_nat (length [u8 (Z.shiftr offset 8); u8 offset])) with 2 in E.
  rewrite E by lia. rewrite high_byte. reflexivity.
Qed.

Lemma writePage_internal8_fits :
  0 <= len <= m_pageSizeInBytes self ->
  len <= Z.of_nat (length data) ->
  writePage_internal8 board self dev (u8 offset) data len w
  = transmitted board self dev w
      (take (Z.to_nat (u16 (len + 1)))
         (AddressCodec_encode EightBit offset ++ take (Z.to_nat len) data
          ++ replicate (Z.to_nat (m_pageSizeInBytes self) - Z.to_nat len) 0)).
Proof.
  intros HP Hd. unfold writePage_internal8, transmitted.
  rewrite staging8 by lia.
  pose proof (copy_into_staging_fits
                [u8 offset] data (Z.to_nat len)
                (Z.to_nat (m_pageSizeInBytes self))) as E.
  change (Z.of_nat (length [u8 offset])) with 1 in E.
  rewrite E by lia. reflexivity.
Qed.

Lemma writePage_internal16_overruns :
  0 <= m_pageSizeInBytes self < len ->
  len <= Z.of_nat (length data) ->
  writePage_internal16 board self dev offset data len w
  = OutOfBounds StagingBuffer (m_pageSizeInBytes self + 2).
Proof.
  intros HP Hd. unfold writePage_internal16.
  rewrite staging16 by lia.
  pose proof (copy_into_staging_overruns
                [u8 (Z.shiftr offset 8); u8 offset] data (Z.to_nat len)
                (Z.to_nat (m_pageSizeInBytes self))) as E.
  change (Z.of_nat (length [u8 (Z.shiftr offset 8); u8 offset])) with 2 in E.
  rewrite E by lia. f_equal. simpl length. lia.
Qed.

Lemma writePage_internal8_overruns :
  0 <= m_pageSizeInBytes self < len ->
  len <= Z.of_nat (length data) ->
  writePage_internal8 board self dev offset data len w
  = OutOfBounds StagingBuffer (m_pageSizeInBytes self + 1).
Proof.
  intros HP Hd. unfold writePage_internal8.
  rewrite staging8 by lia.
  pose proof (copy_into_staging_overruns
                [offset] data (Z.to_nat len)
                (Z.to_nat (m_pageSizeInBytes self))) as E.
  change (Z.of_nat (length [offset])) with 1 in E.
  rewrite E by lia. f_equal. simpl length. lia.
Qed.

(** With no wrap of the [uint16_t] size, the frame of a request that
    fits is the prefix followed by the [len] data bytes. *)
Lemma writePage_internal16_frame :
  0 <= len <= m_pageSizeInBytes self ->
  len <= Z.of_nat (length data) ->
  len + 2 < 65536 ->
  writePage_internal16 board self dev offset data len w
  = transmitted board self dev w
      (AddressCodec_encode SixteenBit offset ++ take (Z.to_nat len) data).
Proof.
  intros HP Hd Hs. rewrite writePage_internal16_fits by assumption.
  f_equal. rewrite u16_small by lia.
  rewrite app_assoc. apply take_app_length'.
  rewrite length_app, length_take. simpl. lia.
Qed.

Lemma writePage_internal8_frame :
  0 <= len <= m_pageSizeInBytes self ->
  len <= Z.of_nat (length data) ->
  len + 1 < 65536 ->
  writePage_internal8 board self dev (u8 offset) data len w
  = transmitted board self dev w
      (AddressCodec_encode EightBit offset ++ take (Z.to_nat len) data).
Proof.
  intros HP Hd Hs. rewrite writePage_internal8_fits by assumption.
  f_equal. rewrite u16_small by lia.
  rewrite app_assoc. apply take_app_length'.
  rewrite length_app, length_take. simpl. lia.
Qed.
End WritePage.

(** ** Completed and abandoned [writePage] calls *)

Section WritePageOutcome.
Variable board : Board.
Variables (self : Eeprom24) (dev offset : Z) (data : list Z) (len : Z).
Variable w : World.

Lemma writePage_internal16_completes :
  len <= m_pageSizeInBytes self ->
  len <= Z.of_nat (length data) ->
  exists r, writePage_internal16 board self dev offset data len w = Done r.
Proof.
  intros HP Hd. destruct (Z_le_gt_dec len 0) as [Hz|Hpos].
  - unfold writePage_internal16.
    replace (Z.to_nat len) with O by lia. simpl. eexists. reflexivity.
  - rewrite writePage_internal16_fits by lia. eexists. reflexivity.
Qed.

Lemma writePage_internal8_completes :
  len <= m_pageSizeInBytes self ->
  len <= Z.of_nat (length data) ->
  exists r, writePage_internal8 board self dev offset data len w = Done r.
Proof.
  intros HP Hd. unfold writePage_internal8.
  destruct (Z_le_gt_dec len 0) as [Hz|Hpos].
  - replace (Z.to_nat len) with O by lia. simpl. eexists. reflexivity.
  - rewrite staging8 by lia.
    pose proof (copy_into_staging_fits [offset] data (Z.to_nat len)
                  (Z.to_nat (m_pageSizeInBytes self))) as E.
    change (Z.of_nat (length [offset])) with 1 in E.
    rewrite E by lia. eexists. reflexivity.
Qed.

Lemma writePage_internal16_stays_inside (i : Z) :
  len <= m_pageSizeInBytes self ->
  writePage_internal16 board self dev offset data len w
  <> OutOfBounds StagingBuffer i.
Proof.
  intros HP. unfold writePage_internal16.
  destruct (Z_le_gt_dec len 0) as [Hz|Hpos].
  - replace (Z.to_nat len) with O by lia. simpl. discriminate.
  - rewrite staging16 by lia.
    pose proof (copy_loop_stays_inside data 2 (Z.to_nat len) 0
                  ([u8 (Z.shiftr offset 8); u8 offset]
                   ++ replicate (Z.to_nat (m_pageSizeInBytes self)) 0)) as C.
    change (Z.of_nat 0) with 0 in C. change (Z.of_nat 2) with 2 in C.
    destruct (copy_loop _ _ _ _ _) as [tmp|r j] eqn:E; [discriminate|].
    intros H. injection H as Hr Hj. subst r j.
    apply (C ltac:(rewrite length_app, length_replicate; simpl; lia) i).
    reflexivity.
Qed.

Lemma writePage_internal8_stays_inside (i : Z) :
  len <= m_pageSizeInBytes self ->
  writePage_internal8 board self dev offset data len w
  <> OutOfBounds StagingBuffer i.
Proof.
  intros HP. unfold writePage_internal8.
  destruct (Z_le_gt_dec len 0) as [Hz|Hpos].
  - replace (Z.to_nat len) with O by lia. simpl. discriminate.
  - rewrite staging8 by lia.
    pose proof (copy_loop_stays_inside data 1 (Z.to_nat len) 0
                  ([offset]
                   ++ replicate (Z.to_nat (m_pageSizeInBytes self)) 0)) as C.
    change (Z.of_nat 0) with 0 in C. change (Z.of_nat 1) with 1 in C.
    destruct (copy_loop _ _ _ _ _) as [tmp|r j] eqn:E; [discriminate|].
    intros H. injection H as Hr Hj. subst r j.
    apply (C ltac:(rewrite length_app, length_replicate; simpl; lia) i).
    reflexivity.
Qed.

Lemma writePage_internal16_done (r : bool * World) :
  writePage_internal16 board self dev offset data len w = Done r ->
  one_transmit board w r.
Proof.
  unfold writePage_internal16. intros E.
  destruct (copy_loop _ _ _ _ _) as [tmp|]; [|discriminate].
  unfold HAL_I2C_Master_Transmit in E. simpl in E. injection E as <-.
  unfold one_transmit. simpl. do 4 eexists. split; reflexivity.
Qed.

Lemma writePage_internal8_done (r : bool * World) :
  writePage_internal8 board self dev offset data len w = Done r ->
  one_transmit board w r.
Proof.
  unfold writePage_internal8. intros E.
  destruct (copy_loop _ _ _ _ _) as [tmp|]; [|discriminate].
  unfold HAL_I2C_Master_Transmit in E. simpl in E. injection E as <-.
  unfold one_transmit. simpl. do 4 eexists. split; reflexivity.
Qed.
End WritePageOutcome.

(** ** The claims *)

(** C1 (fails on [writeByte_internal8]).  The address prefix is one byte
    with 8-bit addressing and two bytes, high byte first, with 16-bit
    addressing, for every operation.  The 8-bit [writeByte] does not do
    so: writing 171 at offset 16 puts the three bytes 0, 16, 171 on the
    bus, a two-byte prefix, where the one-byte prefix gives 16, 171. *)
Theorem writeByte_internal8_sends_two_address_bytes :
  writeByte_internal8 ideal_board chip02 DEFAULT_ADDRESS 16 171 boot
  = (true, mkWorld 0 [MasterTransmit 0 160 [0; 16; 171] 25])
  /\ [0; 16; 171] <> AddressCodec_encode EightBit 16 ++ [171].
Proof. split; [reflexivity | discriminate]. Qed.

(** C3 (fails past one page).  [writePage] transmits the prefix followed
    by all [length] data bytes, also when [length] exceeds the page size.
    The staging buffer holds one page only: a request of 129 bytes on a
    chip with 128-byte pages stores at index 130 of a 130-byte array, and
    9 bytes on a chip with 8-byte pages at index 9 of a 9-byte array; no
    frame is defined from there on. *)
Theorem writePage_past_one_page_leaves_staging_buffer :
  forall (board : Board) (w : World),
    writePage_internal16 board chip512 DEFAULT_ADDRESS 0 (replicate 129 7) 129 w
    = OutOfBounds StagingBuffer 130
    /\ writePage_internal8 board chip02 DEFAULT_ADDRESS 0 (replicate 9 7) 9 w
       = OutOfBounds StagingBuffer 9.
Proof. intros board w. split; reflexivity. Qed.

(** C5.  A write-family call makes exactly one transmit and returns
    [true] exactly when that transmit reports [HAL_OK], whatever the
    status: nothing is reissued.  [writeByte] always gets there;
    [writePage] gets there whenever it completes, and it fails to
    complete only on a [length] beyond the page size or beyond the
    caller's data. *)
Theorem write_family_transmits_once :
  forall (board : Board) (self : Eeprom24) (dev offset value : Z)
         (data : list Z) (len : Z) (w : World),
    one_transmit board w (writeByte_internal16 board self dev offset value w)
    /\ one_transmit board w (writeByte_internal8 board self dev offset value w)
    /\ match writePage_internal16 board self dev offset data len w with
       | Done r => one_transmit board w r
       | OutOfBounds _ _ =>
           m_pageSizeInBytes self < len \/ Z.of_nat (length data) < len
       end
    /\ match writePage_internal8 board self dev offset data len w with
       | Done r => one_transmit board w r
       | OutOfBounds _ _ =>
           m_pageSizeInBytes self < len \/ Z.of_nat (length data) < len
       end.
Proof.
  intros board self dev offset value data len w.
  split; [|split; [|split]].
  - unfold one_transmit, writeByte_internal16, HAL_I2C_Master_Transmit.
    simpl. do 4 eexists. split; reflexivity.
  - unfold one_transmit, writeByte_internal8, HAL_I2C_Master_Transmit.
    simpl. do 4 eexists. split; reflexivity.
  - destruct (writePage_internal16 _ _ _ _ _ _ _) as [r|rg i] eqn:E.
    + eapply writePage_internal16_done. exact E.
    + destruct (Z_le_gt_dec len (m_pageSizeInBytes self)) as [HP|HP];
        [|left; lia].
      destruct (Z_le_gt_dec len (Z.of_nat (length data))) as [Hd|Hd];
        [|right; lia].
      destruct (writePage_internal16_completes
                  board self dev offset data len w HP Hd) as [r C].
      congruence.
  - destruct (writePage_internal8 _ _ _ _ _ _ _) as [r|rg i] eqn:E.
    + eapply writePage_internal8_done. exact E.
    + destruct (Z_le_gt_dec len (m_pageSizeInBytes self)) as [HP|HP];
        [|left; lia].
      destruct (Z_le_gt_dec len (Z.of_nat (length data))) as [Hd|Hd];
        [|right; lia].
      destruct (writePage_internal8_completes
                  board self dev offset data len w HP Hd) as [r C].
      congruence.
Qed.

(** C10.  A [length] of at most the page size keeps every store of the
    copy loop inside the staging buffer, and the call completes when the
    caller's [data] holds [length] bytes; with such [data], a larger
    [length] makes the loop store at the first index past the buffer,
    [pageSize + 2] for the 16-bit overload and [pageSize + 1] for the
    8-bit one. *)
Theorem writePage_staging_bounds :
  forall (board : Board) (self : Eeprom24) (dev offset : Z) (data : list Z)
         (len : Z) (w : World),
    0 <= m_pageSizeInBytes self ->
    (len <= m_pageSizeInBytes self ->
       (forall i : Z,
          writePage_internal16 board self dev offset data len w
          <> OutOfBounds StagingBuffer i
          /\ writePage_internal8 board self dev offset data len w
             <> OutOfBounds StagingBuffer i)
       /\ (len <= Z.of_nat (length data) ->
             (exists r,
                writePage_internal16 board self dev offset data len w = Done r)
             /\ (exists r,
                   writePage_internal8 board self dev offset data len w
                   = Done r)))
    /\ (m_pageSizeInBytes self < len <= Z.of_nat (length data) ->
          writePage_internal16 board self dev offset data len w
          = OutOfBounds StagingBuffer (m_pageSizeInBytes self + 2)
          /\ writePage_internal8 board self dev offset data len w
             = OutOfBounds StagingBuffer (m_pageSizeInBytes self + 1)).
Proof.
  intros board self dev offset data len w HP. split; intros H.
  - split; [intros i; split|intros Hd; split].
    + apply writePage_internal16_stays_inside. exact H.
    + apply writePage_internal8_stays_inside. exact H.
    + apply writePage_internal16_completes; lia.
    + apply writePage_internal8_completes; lia.
  - split.
    + apply writePage_internal16_overruns; lia.
    + apply writePage_internal8_overruns; lia.
Qed.

Lemma writePage_staging_bounds_witness :
  (exists r, writePage_internal16 ideal_board chip512 80 100 [1; 2; 3] 3 boot
             = Done r)
  /\ writePage_internal8 ideal_board chip02 80 100 (replicate 9 7) 9 boot
     = OutOfBounds StagingBuffer 9.
Proof.
  split.
  - apply (writePage_staging_bounds ideal_board chip512 80 100 [1; 2; 3]
             3 boot); simpl; lia.
  - apply (writePage_staging_bounds ideal_board chip02 80 100 (replicate 9 7)
             9 boot); simpl; lia.
Defined.

(** ** The read family *)

Section ReadFamily.
Variable board : Board.
Variables (self : Eeprom24) (dev offset : Z) (w : World).

Lemma readByte_internal16_result :
  readByte_internal16 board self dev offset w
  = (hd 0 (snd (receive_result board
                  (addressed self dev w
                     (AddressCodec_encode SixteenBit offset))
                  (wire_address dev) 1)),
     log (MasterReceive (m_i2c self) (wire_address dev) 1 25)
       (addressed self dev w (AddressCodec_encode SixteenBit offset))).
Proof.
  unfold readByte_internal16, HAL_I2C_Master_Transmit,
    HAL_I2C_Master_Receive, addressed; simpl.
  rewrite high_byte, low_byte. fold (wire_address dev).
  destruct (receive_result _ _ _ _) as [st [|b bytes]]; reflexivity.
Qed.

Lemma readByte_internal8_result :
  readByte_internal8 board self dev (u8 offset) w
  = (hd 0 (snd (receive_result board
                  (addressed self dev w
                     (AddressCodec_encode EightBit offset))
                  (wire_address dev) 1)),
     log (MasterReceive (m_i2c self) (wire_address dev) 1 25)
       (addressed self dev w (AddressCodec_encode EightBit offset))).
Proof.
  unfold readByte_internal8, HAL_I2C_Master_Transmit,
    HAL_I2C_Master_Receive, addressed; simpl.
  fold (wire_address dev).
  destruct (receive_result _ _ _ _) as [st [|b bytes]]; reflexivity.
Qed.

Lemma readPage_internal16_result (data : list Z) (len : Z) :
  fst (fst (readPage_internal16 board self dev offset data len w))
  = is_HAL_OK (fst (receive_result board
                      (addressed self dev w
                     (AddressCodec_encode SixteenBit offset))
                      (wire_address dev) (u16 len))).
Proof.
  unfold readPage_internal16, HAL_I2C_Master_Transmit,
    HAL_I2C_Master_Receive, addressed; simpl.
  rewrite high_byte, low_byte. fold (wire_address dev).
  destruct (receive_result _ _ _ _) as [st bytes]; reflexivity.
Qed.

Lemma readPage_internal8_result (data : list Z) (len : Z) :
  fst (fst (readPage_internal8 board self dev (u8 offset) data len w))
  = is_HAL_OK (fst (receive_result board
                      (addressed self dev w
                     (AddressCodec_encode EightBit offset))
                      (wire_address dev) (u16 len))).
Proof.
  unfold readPage_internal8, HAL_I2C_Master_Transmit,
    HAL_I2C_Master_Receive, addressed; simpl.
  fold (wire_address dev).
  destruct (receive_result _ _ _ _) as [st bytes]; reflexivity.
Qed.
End ReadFamily.

(** C4 (as amended).  [readByte] sends the address prefix, then asks for
    one byte, whether or not the prefix was acknowledged; it returns no
    status, only the byte left in its zero-initialised buffer: the first
    byte the read phase delivered, and 0 when it delivered none.  The
    outcome of the write phase does not enter the result. *)
Theorem readByte_two_phase_default :
  forall (board : Board) (self : Eeprom24) (dev offset : Z) (w : World),
    readByte_internal16 board self dev offset w
    = (hd 0 (snd (receive_result board
                    (addressed self dev w
                       (AddressCodec_encode SixteenBit offset))
                    (wire_address dev) 1)),
       log (MasterReceive (m_i2c self) (wire_address dev) 1 25)
         (addressed self dev w (AddressCodec_encode SixteenBit offset)))
    /\ readByte_internal8 board self dev (u8 offset) w
       = (hd 0 (snd (receive_result board
                       (addressed self dev w
                          (AddressCodec_encode EightBit offset))
                       (wire_address dev) 1)),
          log (MasterReceive (m_i2c self) (wire_address dev) 1 25)
            (addressed self dev w (AddressCodec_encode EightBit offset))).
Proof.
  intros board self dev offset w. split.
  - apply readByte_internal16_result.
  - apply readByte_internal8_result.
Qed.

(** C4 as stated fails: on a bus that refuses the address prefix and then
    delivers the byte 90, [readByte] returns 90, not 0. *)
Lemma readByte_after_refused_prefix_is_not_zero :
  ~ (transmit_status (deaf_board [90]) boot (wire_address DEFAULT_ADDRESS)
       (AddressCodec_encode SixteenBit 16) <> HAL_OK ->
     fst (readByte_internal16 (deaf_board [90]) chip512 DEFAULT_ADDRESS 16 boot)
     = 0).
Proof.
  intros H. assert (E : 90 = 0); [|discriminate E].
  apply H. discriminate.
Qed.

(** C6.  [readPage] follows the two phases of [readByte]: the address
    prefix goes out, then one receive asks for [length] bytes, where
    [readByte] asks for 1.  The size asked for is [length] itself for
    every [uint16_t] value; the page size of the chip plays no part. *)
Theorem readPage_two_phase_full_length :
  forall (board : Board) (self : Eeprom24) (dev offset : Z) (data : list Z)
         (len : Z) (w : World),
    0 <= len < 65536 ->
    trace (snd (readPage_internal16 board self dev offset data len w))
    = trace w ++ [MasterTransmit (m_i2c self) (wire_address dev)
                    (AddressCodec_encode SixteenBit offset) 25;
                  MasterReceive (m_i2c self) (wire_address dev) len 25]
    /\ trace (snd (readPage_internal8 board self dev (u8 offset) data len w))
       = trace w ++ [MasterTransmit (m_i2c self) (wire_address dev)
                       (AddressCodec_encode EightBit offset) 25;
                     MasterReceive (m_i2c self) (wire_address dev) len 25]
    /\ trace (snd (readByte_internal16 board self dev offset w))
       = trace w ++ [MasterTransmit (m_i2c self) (wire_address dev)
                       (AddressCodec_encode SixteenBit offset) 25;
                     MasterReceive (m_i2c self) (wire_address dev) 1 25]
    /\ trace (snd (readByte_internal8 board self dev (u8 offset) w))
       = trace w ++ [MasterTransmit (m_i2c self) (wire_address dev)
                       (AddressCodec_encode EightBit offset) 25;
                     MasterReceive (m_i2c self) (wire_address dev) 1 25].
Proof.
  intros board self dev offset data len w Hlen.
  rewrite readPage_internal16_frames, readPage_internal8_frames,
    readByte_internal16_frames, readByte_internal8_frames.
  rewrite (u16_small len Hlen). repeat split; reflexivity.
Qed.

Lemma readPage_two_phase_full_length_witness :
  trace (snd (readPage_internal16 ideal_board chip512 DEFAULT_ADDRESS 100
                (replicate 300 0) 300 boot))
  = [MasterTransmit 0 160 [0; 100] 25; MasterReceive 0 160 300 25].
Proof.
  apply (readPage_two_phase_full_length ideal_board chip512 DEFAULT_ADDRESS
           100 (replicate 300 0) 300 boot).
  lia.
Defined.

(** C9.  What [readPage] and [readByte] return is settled by the read
    phase alone: replacing the answers of the bus to every transmit
    changes nothing, and on a bus that refuses every transmit and then
    delivers its bytes, [readPage] returns [true] and [readByte] the byte
    delivered. *)
Theorem read_result_ignores_transmit_status :
  forall (board : Board) (f : World -> Z -> list Z -> HAL_StatusTypeDef)
         (self : Eeprom24) (dev offset : Z) (data : list Z) (len : Z)
         (w : World) (b : Z) (bytes : list Z),
    (readPage_internal16 (with_transmit_status f board)
       self dev offset data len w
     = readPage_internal16 board self dev offset data len w
     /\ readPage_internal8 (with_transmit_status f board)
          self dev offset data len w
        = readPage_internal8 board self dev offset data len w
     /\ readByte_internal16 (with_transmit_status f board) self dev offset w
        = readByte_internal16 board self dev offset w
     /\ readByte_internal8 (with_transmit_status f board) self dev offset w
        = readByte_internal8 board self dev offset w)
    /\ (fst (fst (readPage_internal16 (deaf_board bytes)
                    self dev offset data len w)) = true
        /\ fst (fst (readPage_internal8 (deaf_board bytes)
                       self dev offset data len w)) = true
        /\ fst (readByte_internal16 (deaf_board (b :: bytes)) self dev offset w)
           = b
        /\ fst (readByte_internal8 (deaf_board (b :: bytes)) self dev offset w)
           = b).
Proof.
  intros board f self dev offset data len w b bytes.
  split; repeat split; reflexivity.
Qed.

(** ** [waitForReady] *)

Lemma never_past_max (x : Z) : (u32 x >? UINT32_MAX) = false.
Proof.
  pose proof (u32_range x). rewrite Z.gtb_ltb. apply Z.ltb_ge. lia.
Qed.

Lemma isReady_poll (k : Z) (self : Eeprom24) (t : Z) (j : nat) :
  isReady (ready_after k) self (mkWorld t (poll self j))
  = (negb (Z.of_nat j <? k), mkWorld t (poll self j ++ [poll_event self])).
Proof.
  unfold isReady, HAL_I2C_IsDeviceReady, log, poll_event; cbn.
  rewrite count_probes_poll. destruct (Z.of_nat j <? k); reflexivity.
Qed.

Lemma delay_after_poll (k : Z) (self : Eeprom24) (t0 : Z) (j : nat) :
  HAL_Delay (ready_after k) 1
    (mkWorld (u32 (t0 + Z.of_nat j)) (poll self j ++ [poll_event self]))
  = mkWorld (u32 (t0 + Z.of_nat (S j))) (poll self (S j)).
Proof.
  unfold HAL_Delay; cbn [tick trace delay_ticks ready_after poll].
  f_equal.
  - unfold u32. rewrite Zplus_mod_idemp_l. f_equal. lia.
  - rewrite <- app_assoc. reflexivity.
Qed.

Lemma elapsed_after_polls (t0 : Z) (j : nat) :
  u32 (u32 (t0 + Z.of_nat j) - t0) = u32 (Z.of_nat j).
Proof. unfold u32. rewrite Zminus_mod_idemp_l. f_equal. lia. Qed.

Section ReadyAfter.
Variables (self : Eeprom24) (k t0 timeout : Z).

(** From the loop head after [j] unanswered polls, below the largest
    timeout. *)
Lemma loop_ready_after_bounded :
  0 <= timeout < UINT32_MAX ->
  forall (fuel j : nat),
    Z.of_nat j <= k -> Z.of_nat j <= timeout ->
    k - Z.of_nat j < Z.of_nat fuel ->
    waitForReady_loop (ready_after k) fuel self t0 timeout
      (mkWorld (u32 (t0 + Z.of_nat j)) (poll self j))
    = Some (polled_out self t0 k timeout).
Proof.
  intros Ht. induction fuel as [|fuel IH]; intros j Hk Hj Hf; [lia|].
  cbn [waitForReady_loop]. rewrite isReady_poll.
  destruct (Z.ltb_spec (Z.of_nat j) k) as [Hlt|Hge]; cbn [negb].
  - rewrite delay_after_poll. unfold HAL_GetTick. cbn [tick].
    rewrite elapsed_after_polls.
    rewrite u32_small by (unfold UINT32_MAX in *; lia).
    destruct (Z.gtb_spec (Z.of_nat (S j)) timeout) as [Hout|Hin].
    + unfold polled_out.
      replace (k <=? timeout) with false by (symmetry; apply Z.leb_gt; lia).
      replace (timeout =? UINT32_MAX) with false
        by (symmetry; apply Z.eqb_neq; lia).
      cbn [orb]. do 3 f_equal; [f_equal; lia|].
      replace (Z.to_nat (timeout + 1)) with (S j) by lia. reflexivity.
    + apply IH; lia.
  - unfold polled_out.
    replace (k <=? timeout) with true by (symmetry; apply Z.leb_le; lia).
    cbn [orb]. replace (Z.to_nat k) with j by lia.
    replace k with (Z.of_nat j) at 1 by lia. reflexivity.
Qed.

(** With the largest timeout the test after the delay never fires. *)
Lemma loop_ready_after_unbounded :
  timeout = UINT32_MAX ->
  forall (fuel j : nat),
    Z.of_nat j <= k ->
    k - Z.of_nat j < Z.of_nat fuel ->
    waitForReady_loop (ready_after k) fuel self t0 timeout
      (mkWorld (u32 (t0 + Z.of_nat j)) (poll self j))
    = Some (polled_out self t0 k timeout).
Proof.
  intros ->. induction fuel as [|fuel IH]; intros j Hk Hf; [lia|].
  cbn [waitForReady_loop]. rewrite isReady_poll.
  destruct (Z.ltb_spec (Z.of_nat j) k) as [Hlt|Hge]; cbn [negb].
  - rewrite delay_after_poll, never_past_max. apply IH; lia.
  - unfold polled_out. rewrite Z.eqb_refl, orb_true_r.
    replace (Z.to_nat k) with j by lia.
    replace k with (Z.of_nat j) at 1 by lia. reflexivity.
Qed.
End ReadyAfter.

(** C2 (as amended).  Against a chip that ignores [k] probes and answers
    the next, with [HAL_Delay(1)] taking exactly one tick,
    [waitForReady(timeout)] probes once per tick and returns [true]
    exactly when [k <= timeout] or [timeout] is the largest [uint32_t];
    it stops after [k] unanswered polls and one answered probe, or after
    [timeout + 1] unanswered polls. *)
Theorem waitForReady_ready_after :
  forall (self : Eeprom24) (k timeout t0 : Z) (fuel : nat),
    0 <= k ->
    0 <= timeout <= UINT32_MAX ->
    0 <= t0 <= UINT32_MAX ->
    k < Z.of_nat fuel ->
    waitForReady (ready_after k) fuel self timeout (mkWorld t0 [])
    = Some (polled_out self t0 k timeout).
Proof.
  intros self k timeout t0 fuel Hk Ht H0 Hf.
  unfold waitForReady, HAL_GetTick. cbn [tick].
  change (@nil BusEvent) with (poll self 0).
  rewrite <- (u32_small t0 H0) at 2.
  replace t0 with (t0 + Z.of_nat 0) at 2 by lia.
  destruct (Z.eq_dec timeout UINT32_MAX) as [Hmax|Hlow].
  - apply loop_ready_after_unbounded; [exact Hmax|lia|lia].
  - apply loop_ready_after_bounded; lia.
Qed.

Lemma waitForReady_ready_after_witness :
  waitForReady (ready_after 3) 4 chip512 2 (mkWorld 7 [])
  = Some (polled_out chip512 7 3 2)
  /\ fst (polled_out chip512 7 3 2) = false.
Proof.
  split; [|reflexivity].
  apply (waitForReady_ready_after chip512 3 2 7 4);
    unfold UINT32_MAX; simpl; lia.
Defined.

(** C2 as stated fails at the largest timeout: a chip that answers after
    2^32 probe intervals is past a timeout of 2^32 - 1 ms, yet
    [waitForReady] returns [true]. *)
Lemma waitForReady_max_timeout_outwaits_the_clock :
  exists (fuel : nat) (w' : World),
    waitForReady (ready_after 4294967296) fuel chip512 UINT32_MAX boot
    = Some (true, w')
    /\ ~ 4294967296 * 1 <= UINT32_MAX.
Proof.
  exists (Z.to_nat 4294967297).
  exists (snd (polled_out chip512 0 4294967296 UINT32_MAX)).
  split; [|unfold UINT32_MAX; lia].
  unfold boot.
  rewrite (waitForReady_ready_after chip512 4294967296 UINT32_MAX 0)
    by (unfold UINT32_MAX; lia).
  unfold polled_out. rewrite Z.eqb_refl, orb_true_r. reflexivity.
Qed.

Section Polling.
Variables (board : Board) (self : Eeprom24) (start timeout : Z).

Hypothesis delay_advances :
  forall w : World, 1 <= delay_ticks board w 1 <= UINT32_MAX - timeout.

(** From a loop head where the elapsed time is still within [timeout],
    enough fuel to cover the remaining ticks brings the loop out. *)
Lemma waitForReady_loop_exits : forall (fuel : nat) (w : World),
  u32 (tick w - start) <= timeout ->
  timeout + 1 - u32 (tick w - start) <= Z.of_nat fuel ->
  exists (b : bool) (w' : World),
    waitForReady_loop board fuel self start timeout w = Some (b, w')
    /\ (count_probes (trace w') <= count_probes (trace w) + fuel)%nat.
Proof.
  induction fuel as [|fuel IH]; intros w He Hf; [lia|].
  cbn [waitForReady_loop].
  unfold isReady, HAL_I2C_IsDeviceReady.
  set (w1 := log _ w).
  assert (Hc : count_probes (trace w1) = S (count_probes (trace w))).
  { unfold w1, log. cbn [trace]. rewrite count_probes_app. simpl. lia. }
  destruct (is_HAL_OK _).
  - exists true, w1. split; [reflexivity|lia].
  - unfold HAL_GetTick, HAL_Delay. cbn [tick].
    set (w2 := mkWorld _ _).
    assert (Hc2 : count_probes (trace w2) = S (count_probes (trace w))).
    { unfold w2. cbn [trace]. rewrite count_probes_app, Hc. simpl. lia. }
    assert (Hd := delay_advances w1).
    assert (Hr := u32_range (tick w - start)).
    assert (Et : tick w1 = tick w) by reflexivity.
    rewrite elapsed_after_delay, Et.
    rewrite u32_small by lia.
    destruct (Z.gtb_spec (u32 (tick w - start) + delay_ticks board w1 1)
                timeout) as [Hout|Hin].
    + exists false, w2. split; [reflexivity|lia].
    + assert (E2 : u32 (tick w2 - start)
                   = u32 (tick w - start) + delay_ticks board w1 1).
      { unfold w2. cbn [tick]. rewrite elapsed_after_delay, Et.
        apply u32_small. lia. }
      destruct (IH w2) as (b & w' & E & Hn); [lia|lia|].
      exists b, w'. split; [exact E|lia].
Qed.
End Polling.

(** C7 (as amended).  When every [HAL_Delay(1)] advances the tick by at
    least 1 and by no more than [2^32 - 1 - timeout] (which leaves out
    the largest timeout), [waitForReady] returns a boolean after at most
    [timeout + 1] probes. *)
Theorem waitForReady_terminates :
  forall (board : Board) (self : Eeprom24) (timeout : Z) (w : World),
    0 <= timeout ->
    (forall w' : World,
       1 <= delay_ticks board w' 1 <= UINT32_MAX - timeout) ->
    exists (b : bool) (w' : World),
      waitForReady board (S (Z.to_nat timeout)) self timeout w = Some (b, w')
      /\ (count_probes (trace w')
          <= count_probes (trace w) + S (Z.to_nat timeout))%nat.
Proof.
  intros board self timeout w Ht Hd.
  unfold waitForReady, HAL_GetTick.
  assert (E0 : u32 (tick w - tick w) = 0).
  { rewrite Z.sub_diag. reflexivity. }
  apply waitForReady_loop_exits; [exact Hd | rewrite E0; lia | rewrite E0; lia].
Qed.

Lemma waitForReady_terminates_witness :
  exists (b : bool) (w' : World),
    waitForReady never_ready 11 chip512 10 boot = Some (b, w')
    /\ (count_probes (trace w') <= 0 + 11)%nat.
Proof.
  apply (waitForReady_terminates never_ready chip512 10 boot).
  - lia.
  - intros w'. unfold UINT32_MAX. simpl. lia.
Defined.

Lemma never_ready_never_leaves (self : Eeprom24) (start : Z) :
  forall (fuel : nat) (w : World),
    waitForReady_loop never_ready fuel self start UINT32_MAX w = None.
Proof.
  induction fuel as [|fuel IH]; intros w; [reflexivity|].
  cbn [waitForReady_loop].
  unfold isReady, HAL_I2C_IsDeviceReady.
  cbn [probe_status never_ready is_HAL_OK].
  rewrite never_past_max. apply IH.
Qed.

(** C7 as stated fails at the largest timeout: with a clock that advances
    exactly 1 ms per [HAL_Delay(1)] and a chip that never answers, no
    amount of fuel lets [waitForReady(4294967295)] return. *)
Lemma waitForReady_max_timeout_never_returns :
  (forall w : World, delay_ticks never_ready w 1 = 1)
  /\ ~ exists (fuel : nat) (b : bool) (w' : World),
         waitForReady never_ready fuel chip512 UINT32_MAX boot = Some (b, w').
Proof.
  split; [reflexivity|].
  intros (fuel & b & w' & E).
  unfold waitForReady in E. rewrite never_ready_never_leaves in E.
  discriminate E.
Qed.

(** ** The device profile *)

Lemma perform_keeps_object (board : Board) (c : Call) :
  forall (self self' : Eeprom24) (w w' : World),
    perform board c (self, w) = Some (self', w') -> self' = self.
Proof.
  intros self self' w w' E. destruct c; cbn [perform] in E.
  3: { destruct (waitForReady _ _ _ _ _) as [[b w1]|]; [|discriminate E].
       injection E as <- _. reflexivity. }
  7: { destruct (Eeprom24_512.writePage _ _ _ _ _ _) as [[b w1]|r i];
         [|discriminate E].
       injection E as <- _. reflexivity. }
  all: injection E as <- _; reflexivity.
Qed.

Lemma run_keeps_object (board : Board) (cs : list Call) :
  forall (self self' : Eeprom24) (w w' : World),
    run board cs (self, w) = Some (self', w') -> self' = self.
Proof.
  induction cs as [|c cs IH]; intros self self' w w' E; cbn [run] in E.
  - injection E as <- _. reflexivity.
  - destruct (perform board c (self, w)) as [[self1 w1]|] eqn:P;
      [|discriminate E].
    apply perform_keeps_object in P. subst self1.
    apply (IH _ _ _ _ E).
Qed.

(** C8.  Whatever calls a client makes on a driver object, the object
    still carries the bus address, capacity and page size its constructor
    was given, and the two getters return that capacity and page size. *)
Theorem profile_is_immutable :
  forall (board : Board) (i2c address size page : Z) (cs : list Call)
         (w : World) (self' : Eeprom24) (w' : World),
    run board cs (Eeprom24_ctor i2c address size page, w) = Some (self', w') ->
    m_i2c_address self' = address
    /\ getSizeInBytes self' = size
    /\ getPageSizeInBytes self' = page.
Proof.
  intros board i2c address size page cs w self' w' E.
  apply run_keeps_object in E. subst self'.
  repeat split; reflexivity.
Qed.

Lemma profile_is_immutable_witness :
  exists (self' : Eeprom24) (w' : World),
    run ideal_board
      [CallInit; CallWriteByte 100 7; CallWaitForReady 5 25;
       CallWritePage 128 [1; 2; 3] 3; CallGetSizeInBytes;
       CallReadByte 100; CallReadPage 128 [0; 0; 0] 3]
      (Eeprom24_512.ctor 0 DEFAULT_ADDRESS, boot) = Some (self', w')
    /\ m_i2c_address self' = 80
    /\ getSizeInBytes self' = 65535
    /\ getPageSizeInBytes self' = 128.
Proof.
  eexists. eexists. split; [reflexivity|].
  eapply (profile_is_immutable ideal_board 0 80 65535 128
            [CallInit; CallWriteByte 100 7; CallWaitForReady 5 25;
             CallWritePage 128 [1; 2; 3] 3; CallGetSizeInBytes;
             CallReadByte 100; CallReadPage 128 [0; 0; 0] 3]
            boot).
  reflexivity.
Defined.

(** * Further properties of the driver *)

(** ** The address pins of the 24x512 *)

(** The constructor that takes the three address pins folds them into the
    low bits of the default address, and they can be read back from the
    address it stores: bit 0 is A0, bit 1 is A1, bit 2 is A2, and the
    bits above are those of [DEFAULT_ADDRESS].  With all pins low it is
    the constructor with the default address. *)
Theorem ctor_pins_address :
  forall (i2c : Z) (A0 A1 A2 : bool),
    let a := m_i2c_address (Eeprom24_512.ctor_pins i2c A0 A1 A2) in
    Z.testbit a 0 = A0
    /\ Z.testbit a 1 = A1
    /\ Z.testbit a 2 = A2
    /\ Z.shiftr a 3 = Z.shiftr DEFAULT_ADDRESS 3
    /\ a = DEFAULT_ADDRESS + Z.b2z A0 + 2 * Z.b2z A1 + 4 * Z.b2z A2
    /\ wire_address a = 2 * a
    /\ Eeprom24_512.ctor_pins i2c false false false
       = Eeprom24_512.ctor i2c DEFAULT_ADDRESS.
Proof.
  intros i2c A0 A1 A2. destruct A0, A1, A2; repeat split; reflexivity.
Qed.

(** ** What [waitForReady] does on any board *)

Lemma poll_shift (self : Eeprom24) (n : nat) :
  [poll_event self; Delay 1] ++ poll self n = poll self (S n).
Proof.
  induction n as [|n IH]; [reflexivity|].
  change (poll self (S (S n)))
    with (poll self (S n) ++ [poll_event self; Delay 1]).
  rewrite <- IH at 2.
  change (poll self (S n)) with (poll self n ++ [poll_event self; Delay 1]).
  rewrite app_assoc. reflexivity.
Qed.

Lemma isReady_step (board : Board) (self : Eeprom24) (w : World) :
  isReady board self w
  = (is_HAL_OK (probe_status board w (wire_address (m_i2c_address self))),
     log (poll_event self) w).
Proof. reflexivity. Qed.

Section AnyBoard.
Variables (board : Board) (self : Eeprom24) (start timeout : Z).

Lemma waitForReady_loop_sound : forall (fuel : nat) (w : World) (b : bool)
    (w' : World),
  waitForReady_loop board fuel self start timeout w = Some (b, w') ->
  exists n : nat,
    trace w' = trace w ++ poll self n
               ++ (if b then [poll_event self] else [])
    /\ (if b
        then exists w0 : World,
               w' = log (poll_event self) w0
               /\ probe_status board w0 (wire_address (m_i2c_address self))
                  = HAL_OK
        else timeout < u32 (tick w' - start) /\ (0 < n)%nat).
Proof.
  induction fuel as [|fuel IH]; intros w b w' E; [discriminate E|].
  cbn [waitForReady_loop] in E. rewrite isReady_step in E.
  destruct (probe_status board w _) eqn:P; cbn [is_HAL_OK] in E.
  1: { injection E as <- <-. exists O. split.
       - cbn [poll app log trace]. reflexivity.
       - exists w. split; [reflexivity|exact P]. }
  all: set (w2 := HAL_Delay board 1 (log (poll_event self) w)) in E;
    assert (T2 : trace w2 = trace w ++ [poll_event self; Delay 1])
      by (unfold w2, HAL_Delay, log; cbn [trace];
          rewrite <- app_assoc; reflexivity);
    destruct (Z.gtb_spec (u32 (HAL_GetTick w2 - start)) timeout)
      as [Hout|Hin];
    [ injection E as <- <-; exists 1%nat; split;
      [ rewrite T2; cbn [poll app]; rewrite ?app_nil_r; reflexivity
      | split; [unfold HAL_GetTick in Hout; lia | lia] ]
    | destruct (IH _ _ _ E) as (n & Tn & Hn); exists (S n); split;
      [ rewrite Tn, T2, <- poll_shift, <- !app_assoc; reflexivity
      | destruct b; [exact Hn | split; [apply Hn | lia]] ] ].
Qed.

(** Fuel only bounds the number of probes: more of it never changes an
    outcome. *)
Lemma waitForReady_loop_fuel : forall (fuel extra : nat) (w : World)
    (r : bool * World),
  waitForReady_loop board fuel self start timeout w = Some r ->
  waitForReady_loop board (fuel + extra) self start timeout w = Some r.
Proof.
  induction fuel as [|fuel IH]; intros extra w r E; [discriminate E|].
  cbn [waitForReady_loop Nat.add] in *.
  destruct (isReady board self w) as [[|] w1]; [exact E|].
  destruct (_ >? _); [exact E|]. apply IH. exact E.
Qed.
End AnyBoard.

(** On any board, a [waitForReady] that returns has put nothing on the
    bus but probes of its own chip, each unanswered one followed by
    [HAL_Delay(1)]: no transmit, no receive.  A [true] result ends on
    the probe that was answered, a [false] result on a delay after at
    least one unanswered probe. *)
Theorem waitForReady_footprint :
  forall (board : Board) (self : Eeprom24) (fuel : nat) (timeout : Z)
         (w : World) (b : bool) (w' : World),
    waitForReady board fuel self timeout w = Some (b, w') ->
    exists n : nat,
      trace w' = trace w ++ poll self n
                 ++ (if b then [poll_event self] else [])
      /\ (b = false -> (0 < n)%nat).
Proof.
  intros board self fuel timeout w b w' E.
  destruct (waitForReady_loop_sound _ _ _ _ _ _ _ _ E) as (n & T & H).
  exists n. split; [exact T|].
  intros ->. apply H.
Qed.

Lemma waitForReady_footprint_witness :
  exists n : nat,
    trace (mkWorld 2 [poll_event chip512; Delay 1; poll_event chip512;
                      Delay 1; poll_event chip512])
    = trace boot ++ poll chip512 n ++ [poll_event chip512]
    /\ (true = false -> (0 < n)%nat).
Proof.
  apply (waitForReady_footprint (ready_after 2) chip512 5 25 boot true).
  reflexivity.
Defined.

(** On any board, [waitForReady] returns [true] only on a probe the chip
    acknowledged, and [false] only once the elapsed ticks, as the 32-bit
    counter shows them, exceed the timeout. *)
Theorem waitForReady_verdict :
  forall (board : Board) (self : Eeprom24) (fuel : nat) (timeout : Z)
         (w : World) (b : bool) (w' : World),
    waitForReady board fuel self timeout w = Some (b, w') ->
    (b = true ->
       exists w0 : World,
         w' = log (poll_event self) w0
         /\ probe_status board w0 (wire_address (m_i2c_address self))
            = HAL_OK)
    /\ (b = false -> timeout < u32 (tick w' - tick w)).
Proof.
  intros board self fuel timeout w b w' E.
  destruct (waitForReady_loop_sound _ _ _ _ _ _ _ _ E) as (n & T & H).
  split; intros ->; [exact H | apply H].
Qed.

Lemma waitForReady_verdict_witness :
  (false = true ->
     exists w0 : World,
       mkWorld 3 (poll chip512 3) = log (poll_event chip512) w0
       /\ probe_status never_ready w0 (wire_address (m_i2c_address chip512))
          = HAL_OK)
  /\ (false = false -> 2 < u32 (tick (mkWorld 3 (poll chip512 3)) - tick boot)).
Proof.
  apply (waitForReady_verdict never_ready chip512 3 2 boot false).
  reflexivity.
Defined.

Section Timeouts.
Variables (board : Board) (self : Eeprom24) (start t t' : Z).
Hypothesis longer : t <= t'.

Lemma loop_longer_timeout : forall (fuel : nat) (w w' : World),
  waitForReady_loop board fuel self start t w = Some (true, w') ->
  waitForReady_loop board fuel self start t' w = Some (true, w').
Proof.
  induction fuel as [|fuel IH]; intros w w' E; [discriminate E|].
  cbn [waitForReady_loop] in *.
  destruct (isReady board self w) as [[|] w1]; [exact E|].
  destruct (Z.gtb_spec (u32 (HAL_GetTick (HAL_Delay board 1 w1) - start)) t)
    as [Hout|Hin]; [discriminate E|].
  destruct (Z.gtb_spec (u32 (HAL_GetTick (HAL_Delay board 1 w1) - start)) t')
    as [Hout'|Hin']; [lia|].
  apply IH. exact E.
Qed.

Lemma loop_shorter_timeout : forall (fuel : nat) (w w' : World),
  waitForReady_loop board fuel self start t' w = Some (false, w') ->
  exists w'' : World,
    waitForReady_loop board fuel self start t w = Some (false, w'').
Proof.
  induction fuel as [|fuel IH]; intros w w' E; [discriminate E|].
  cbn [waitForReady_loop] in *.
  destruct (isReady board self w) as [[|] w1]; [discriminate E|].
  destruct (Z.gtb_spec (u32 (HAL_GetTick (HAL_Delay board 1 w1) - start)) t)
    as [Hout|Hin]; [eexists; reflexivity|].
  destruct (Z.gtb_spec (u32 (HAL_GetTick (HAL_Delay board 1 w1) - start)) t')
    as [Hout'|Hin']; [lia|].
  apply (IH _ _ E).
Qed.
End Timeouts.

(** On any board, a longer timeout never turns a success into a failure:
    a call that returned [true] returns [true] in the same world under
    any larger timeout, and a call that timed out would also have timed
    out under any smaller one. *)
Theorem waitForReady_longer_timeout :
  forall (board : Board) (self : Eeprom24) (fuel : nat) (t t' : Z)
         (w w' : World),
    t <= t' ->
    (waitForReady board fuel self t w = Some (true, w') ->
     waitForReady board fuel self t' w = Some (true, w'))
    /\ (waitForReady board fuel self t' w = Some (false, w') ->
        exists w'' : World,
          waitForReady board fuel self t w = Some (false, w'')).
Proof.
  intros board self fuel t t' w w' H. unfold waitForReady. split.
  - apply loop_longer_timeout. exact H.
  - apply loop_shorter_timeout. exact H.
Qed.

Lemma waitForReady_longer_timeout_witness :
  waitForReady (ready_after 2) 5 chip512 25 boot
  = Some (true, mkWorld 2 (poll chip512 2 ++ [poll_event chip512])).
Proof.
  apply (waitForReady_longer_timeout (ready_after 2) chip512 5 2 25 boot).
  - lia.
  - reflexivity.
Defined.

(** ** Whom the driver talks to *)

Lemma poll_meant_for (self : Eeprom24) (n : nat) :
  Forall (meant_for (m_i2c self) (wire_address (m_i2c_address self)))
         (poll self n).
Proof.
  induction n as [|n IH]; [constructor|].
  cbn [poll]. apply Forall_app. split; [exact IH|].
  repeat constructor.
Qed.

Lemma perform_stays_on_own_address (board : Board) (c : Call) :
  forall (self self' : Eeprom24) (w w' : World),
    perform board c (self, w) = Some (self', w') ->
    exists t : list BusEvent,
      trace w' = trace w ++ t
      /\ Forall (meant_for (m_i2c self) (wire_address (m_i2c_address self))) t.
Proof.
  intros self self' w w' E. destruct c; unfold perform in E.
  - injection E as _ <-. eexists. split; [reflexivity|].
    repeat constructor.
  - injection E as _ <-. eexists. split; [reflexivity|].
    repeat constructor.
  - destruct (waitForReady _ _ _ _ _) as [[b w1]|] eqn:W; [|discriminate E].
    injection E as _ <-.
    destruct (waitForReady_loop_sound _ _ _ _ _ _ _ _ W) as (n & T & _).
    eexists. split; [exact T|].
    apply Forall_app. split; [apply poll_meant_for|].
    destruct b; repeat constructor.
  - injection E as _ <-. exists []. split; [symmetry; apply app_nil_r|].
    constructor.
  - injection E as _ <-. exists []. split; [symmetry; apply app_nil_r|].
    constructor.
  - pose proof (writeByte_internal16_frame board self (m_i2c_address self)
                  address w data) as T.
    injection E as _ <-. eexists. split; [exact T|].
    repeat constructor.
  - pose proof (readByte_internal16_frames board self (m_i2c_address self)
                  address w) as T.
    injection E as _ <-. eexists. split; [exact T|].
    repeat constructor.
  - unfold Eeprom24_512.writePage, writePage_internal16 in E.
    destruct (copy_loop _ _ _ _ _) as [tmp|]; [|discriminate E].
    unfold HAL_I2C_Master_Transmit in E. cbn in E.
    injection E as _ <-. eexists. split; [reflexivity|].
    repeat constructor.
  - pose proof (readPage_internal16_frames board self (m_i2c_address self)
                  address w data length) as T.
    injection E as _ <-. eexists. split; [exact T|].
    repeat constructor.
Qed.

(** Whatever calls a client makes on a 24x512 object, the trace only
    grows, and every event added goes to the handle and the shifted bus
    address of that object: the driver never addresses another device. *)
Theorem public_calls_stay_on_own_address :
  forall (board : Board) (cs : list Call) (self self' : Eeprom24)
         (w w' : World),
    run board cs (self, w) = Some (self', w') ->
    exists t : list BusEvent,
      trace w' = trace w ++ t
      /\ Forall (meant_for (m_i2c self) (wire_address (m_i2c_address self))) t.
Proof.
  intros board cs. induction cs as [|c cs IH]; intros self self' w w' E;
    cbn [run] in E.
  - injection E as _ <-. exists []. split; [symmetry; apply app_nil_r|].
    constructor.
  - destruct (perform board c (self, w)) as [[self1 w1]|] eqn:P;
      [|discriminate E].
    pose proof (perform_keeps_object _ _ _ _ _ _ P) as ->.
    destruct (perform_stays_on_own_address _ _ _ _ _ _ P) as (t1 & T1 & F1).
    destruct (IH _ _ _ _ E) as (t2 & T2 & F2).
    exists (t1 ++ t2). split.
    + rewrite T2, T1, app_assoc. reflexivity.
    + apply Forall_app. split; assumption.
Qed.

Lemma public_calls_stay_on_own_address_witness :
  exists (w' : World) (t : list BusEvent),
    run ideal_board
      [CallInit; CallWriteByte 100 7; CallWaitForReady 5 25;
       CallWritePage 128 [1; 2; 3] 3; CallReadByte 100;
       CallReadPage 128 [0; 0; 0] 3]
      (chip512, boot) = Some (chip512, w')
    /\ trace w' = trace boot ++ t
    /\ Forall (meant_for 0 160) t.
Proof.
  eexists. 
  assert (R : run ideal_board
      [CallInit; CallWriteByte 100 7; CallWaitForReady 5 25;
       CallWritePage 128 [1; 2; 3] 3; CallReadByte 100;
       CallReadPage 128 [0; 0; 0] 3]
      (chip512, boot) = Some (chip512, _)) by reflexivity.
  destruct (public_calls_stay_on_own_address _ _ _ _ _ _ R) as (t & T & F).
  exists t. split; [exact R|]. split; [exact T|exact F].
Defined.

(** ** Offsets and frames *)




(** A page operation on one byte, next to the byte operation. *)
Lemma one_byte_pages :
  forall (board : Board) (self : Eeprom24) (dev a d : Z) (w : World),
    1 <= m_pageSizeInBytes self ->
    writePage_internal16 board self dev a [d] 1 w
    = Done (writeByte_internal16 board self dev a d w)
    /\ readByte_internal16 board self dev a w
       = (nth 0 (snd (fst (readPage_internal16 board self dev a [0] 1 w))) 0,
          snd (readPage_internal16 board self dev a [0] 1 w)).
Proof.
  intros board self dev a d w HP. split.
  - rewrite writePage_internal16_frame by (simpl; lia).
    unfold transmitted, writeByte_internal16, HAL_I2C_Master_Transmit.
    cbn. rewrite high_byte, low_byte. reflexivity.
  - unfold readByte_internal16, readPage_internal16,
      HAL_I2C_Master_Transmit, HAL_I2C_Master_Receive. cbn.
    destruct (receive_result _ _ _ _) as [st bytes]. reflexivity.
Qed.

(** With 16-bit addressing the byte operations are the page operations
    on one byte: on a chip whose page holds at least one byte,
    [writePage] of the one byte [d] is [writeByte] of [d], and [readByte]
    returns what [readPage] leaves in a zeroed one-byte buffer. *)
Theorem byte_operations_are_one_byte_pages :
  forall (board : Board) (self : Eeprom24) (dev a d : Z) (w : World),
    1 <= m_pageSizeInBytes self ->
    writePage_internal16 board self dev a [d] 1 w
    = Done (writeByte_internal16 board self dev a d w)
    /\ readByte_internal16 board self dev a w
       = (nth 0 (snd (fst (readPage_internal16 board self dev a [0] 1 w))) 0,
          snd (readPage_internal16 board self dev a [0] 1 w)).
Proof.
  intros board self dev a d w HP.
  destruct (one_byte_pages board self dev a d w HP) as [W R].
  split; [exact W|exact R].
Qed.

Lemma byte_operations_are_one_byte_pages_witness :
  writePage_internal16 ideal_board chip512 80 513 [7] 1 boot
  = Done (writeByte_internal16 ideal_board chip512 80 513 7 boot).
Proof.
  apply (byte_operations_are_one_byte_pages ideal_board chip512 80 513 7 boot).
  simpl. lia.
Defined.

(** A [writePage] of no bytes still goes on the bus: it transmits the
    bare address prefix, the very frame that opens a read at that
    offset, whatever [data] points to. *)
Theorem writePage_of_nothing_sends_the_prefix :
  forall (board : Board) (self : Eeprom24) (dev offset : Z) (data : list Z)
         (w : World),
    0 <= m_pageSizeInBytes self ->
    writePage_internal16 board self dev offset data 0 w
    = Done (is_HAL_OK (transmit_status board w (wire_address dev)
                         (AddressCodec_encode SixteenBit offset)),
            addressed self dev w (AddressCodec_encode SixteenBit offset))
    /\ writePage_internal8 board self dev (u8 offset) data 0 w
       = Done (is_HAL_OK (transmit_status board w (wire_address dev)
                            (AddressCodec_encode EightBit offset)),
               addressed self dev w (AddressCodec_encode EightBit offset)).
Proof.
  intros board self dev offset data w HP. split.
  - rewrite writePage_internal16_frame by lia.
    cbn [Z.to_nat take]. rewrite app_nil_r. reflexivity.
  - rewrite writePage_internal8_frame by lia.
    cbn [Z.to_nat take]. rewrite app_nil_r. reflexivity.
Qed.

Lemma writePage_of_nothing_sends_the_prefix_witness :
  writePage_internal16 ideal_board chip512 80 513 [] 0 boot
  = Done (true, mkWorld 0 [MasterTransmit 0 160 [2; 1] 25]).
Proof.
  apply (writePage_of_nothing_sends_the_prefix ideal_board chip512 80 513 []
           boot).
  simpl. lia.
Defined.

Lemma copy_loop_short_data (data : list Z) (o : nat) (n : nat) :
  forall (j : nat) (tmp : list Z),
    (j <= length data < j + n)%nat ->
    (length data + o <= length tmp)%nat ->
    copy_loop n (Z.of_nat j) (Z.of_nat o) data tmp
    = OutOfBounds CallerData (Z.of_nat (length data)).
Proof.
  induction n as [|n IH]; intros j tmp Hj Ht; simpl; [lia|].
  rewrite Nat2Z.id.
  destruct (data !! j) as [d|] eqn:E.
  - apply lookup_lt_Some in E.
    rewrite <- Nat2Z.inj_add, Nat2Z.id.
    destruct (Nat.ltb_spec (j + o) (length tmp)) as [Hlt|Hge]; [|lia].
    replace (Z.of_nat j + 1) with (Z.of_nat (S j)) by lia.
    apply IH; rewrite ?length_insert; lia.
  - apply lookup_ge_None_1 in E. f_equal. lia.
Qed.

(** [writePage] trusts [length]: asked for more bytes than the caller's
    array holds, with the array shorter than a page, the copy loop reads
    the array at its length, the first index past it, and the call ends
    there with nothing sent. *)
Theorem writePage_reads_past_short_data :
  forall (board : Board) (self : Eeprom24) (dev offset : Z) (data : list Z)
         (len : Z) (w : World),
    Z.of_nat (length data) < len ->
    Z.of_nat (length data) < m_pageSizeInBytes self ->
    writePage_internal16 board self dev offset data len w
    = OutOfBounds CallerData (Z.of_nat (length data))
    /\ writePage_internal8 board self dev offset data len w
       = OutOfBounds CallerData (Z.of_nat (length data)).
Proof.
  intros board self dev offset data len w Hlen HP. split.
  - unfold writePage_internal16. rewrite staging16 by lia.
    change 0 with (Z.of_nat 0). change 2 with (Z.of_nat 2).
    rewrite copy_loop_short_data; [reflexivity|lia|].
    rewrite length_app, length_replicate. simpl. lia.
  - unfold writePage_internal8. rewrite staging8 by lia.
    change 0 with (Z.of_nat 0). change 1 with (Z.of_nat 1).
    rewrite copy_loop_short_data; [reflexivity|lia|].
    rewrite length_app, length_replicate. simpl. lia.
Qed.

Lemma writePage_reads_past_short_data_witness :
  writePage_internal16 ideal_board chip512 80 0 [1; 2] 3 boot
  = OutOfBounds CallerData 2.
Proof.
  apply (writePage_reads_past_short_data ideal_board chip512 80 0 [1; 2] 3
           boot); simpl; lia.
Defined.

(** ** The two revisions *)



(** ** The driver against the simulated chip *)

Lemma decode_encode16 (a : Z) : 0 <= a < 65536 ->
  256 * ((a / 256) mod 256) + a mod 256 = a.
Proof.
  intros Ha.
  pose proof (Z.div_mod a 256 ltac:(lia)).
  assert (0 <= a / 256 < 256)
    by (split; [apply Z.div_pos; lia | apply Z.div_lt_upper_bound; lia]).
  rewrite (Z.mod_small (a / 256)) by lia. lia.
Qed.

Lemma next_in_page_inside (a : Z) :
  a mod 128 + 1 < 128 ->
  next_in_page a = a + 1 /\ (a + 1) mod 128 = a mod 128 + 1.
Proof.
  intros H. pose proof (Z.mod_pos_bound a 128 ltac:(lia)).
  assert (E : (a + 1) mod 128 = a mod 128 + 1).
  { rewrite <- Zplus_mod_idemp_l. apply Z.mod_small. lia. }
  split; [|exact E].
  unfold next_in_page. rewrite (Z.mod_small (a mod 128 + 1)) by lia. lia.
Qed.

(** A write that stays inside its page lands cell by cell from the
    address on, and touches nothing else. *)
Lemma store_page_cells : forall (payload : list Z) (a : Z) (m : Z -> Z),
  a mod 128 + Z.of_nat (length payload) <= 128 ->
  forall x : Z,
    fst (store_page a payload m) x
    = if (a <=? x) && (x <? a + Z.of_nat (length payload))
      then nth (Z.to_nat (x - a)) payload 0
      else m x.
Proof.
  induction payload as [|b rest IH]; intros a m H x.
  - cbn [store_page fst length].
    destruct (Z.leb_spec a x), (Z.ltb_spec x (a + Z.of_nat 0));
      cbn [andb]; try reflexivity; lia.
  - cbn [store_page].
    pose proof (Z.mod_pos_bound a 128 ltac:(lia)) as Ba.
    pose proof (Z.mod_pos_bound (next_in_page a) 128 ltac:(lia)) as Bn.
    destruct rest as [|b' rest'] eqn:R.
    + cbn [store_page fst length].
      destruct (Z.leb_spec a x), (Z.ltb_spec x (a + Z.of_nat 1)),
        (Z.eqb_spec x a); cbn [andb]; try lia; try reflexivity.
      subst x. rewrite Z.sub_diag. reflexivity.
    + rewrite <- R in *.
      assert (L : (0 < length rest)%nat) by (rewrite R; simpl; lia).
      cbn [length] in H.
      destruct (next_in_page_inside a ltac:(lia)) as [En Em].
      rewrite IH by (rewrite En, Em; lia).
      rewrite En. cbn [length].
      destruct (Z.leb_spec (a + 1) x),
        (Z.ltb_spec x (a + 1 + Z.of_nat (length rest))),
        (Z.leb_spec a x), (Z.ltb_spec x (a + Z.of_nat (S (length rest)))),
        (Z.eqb_spec x a); cbn [andb]; try lia; try reflexivity.
      * replace (Z.to_nat (x - a)) with (S (Z.to_nat (x - (a + 1)))) by lia.
        reflexivity.
      * subst x. rewrite Z.sub_diag. reflexivity.
Qed.

Lemma read_back : forall (data : list Z) (a : Z) (m : Z -> Z),
  0 <= a -> a + Z.of_nat (length data) <= 65536 ->
  (forall i : nat, (i < length data)%nat ->
     m (a + Z.of_nat i) = nth i data 0) ->
  map (fun i => m ((a + Z.of_nat i) mod 65536)) (seq 0 (length data)) = data.
Proof.
  induction data as [|b rest IH]; intros a m Ha Hb Hm; [reflexivity|].
  cbn [length seq map]. cbn [length] in Hb. f_equal.
  - rewrite Z.mod_small by lia. apply (Hm O). simpl. lia.
  - rewrite <- seq_shift, map_map.
    rewrite <- (IH (a + 1) m) at 2.
    + apply map_ext. intros i. do 2 f_equal. lia.
    + lia.
    + lia.
    + intros i Hi.
      replace (a + 1 + Z.of_nat i) with (a + Z.of_nat (S i)) by lia.
      apply (Hm (S i)). simpl. lia.
Qed.

Section Chip.
Variable twr : Z.

Lemma chip_of_snoc (t : list BusEvent) (e : BusEvent) :
  chip_of twr (t ++ [e]) = chip_step twr (chip_of twr t) e.
Proof. unfold chip_of. rewrite fold_left_app. reflexivity. Qed.

Lemma chip_after_poll (self : Eeprom24) (t : list BusEvent) (j : nat) :
  0 <= lockup (chip_of twr t) ->
  chip_of twr (t ++ poll self j)
  = mkChip (cells (chip_of twr t)) (cursor (chip_of twr t))
      (Z.max 0 (lockup (chip_of twr t) - Z.of_nat j)).
Proof.
  intros H. induction j as [|j IH].
  - cbn [poll]. rewrite app_nil_r.
    destruct (chip_of twr t) as [m c l]. cbn [lockup] in *.
    f_equal. lia.
  - cbn [poll].
    change [poll_event self; Delay 1]
      with ([poll_event self] ++ [Delay 1]).
    rewrite !app_assoc, !chip_of_snoc, IH.
    cbn [chip_step poll_event cells cursor lockup]. f_equal. lia.
Qed.

Lemma chip_after_write (t : list BusEvent) (h da a : Z) (payload : list Z)
    (timeout : Z) :
  lockup (chip_of twr t) = 0 -> 0 <= a < 65536 ->
  chip_of twr
    (t ++ [MasterTransmit h da
             (AddressCodec_encode SixteenBit a ++ payload) timeout])
  = mkChip (fst (store_page a payload (cells (chip_of twr t))))
      (snd (store_page a payload (cells (chip_of twr t))))
      (match payload with [] => 0 | _ => twr end).
Proof.
  intros Hidle Ha. rewrite chip_of_snoc.
  cbn [chip_step AddressCodec_encode app]. rewrite Hidle. cbn [Z.ltb Z.compare].
  rewrite decode_encode16 by exact Ha.
  destruct (store_page a payload _) as [m c]. reflexivity.
Qed.
End Chip.

Lemma readPage_internal16_value (board : Board) (self : Eeprom24)
    (dev offset : Z) (data : list Z) (len : Z) (w : World) :
  readPage_internal16 board self dev offset data len w
  = ((is_HAL_OK
        (fst (receive_result board
                (addressed self dev w (AddressCodec_encode SixteenBit offset))
                (wire_address dev) (u16 len))),
      overlay
        (take (Z.to_nat (u16 len))
           (snd (receive_result board
                   (addressed self dev w
                      (AddressCodec_encode SixteenBit offset))
                   (wire_address dev) (u16 len))))
        data),
     log (MasterReceive (m_i2c self) (wire_address dev) (u16 len) 25)
       (addressed self dev w (AddressCodec_encode SixteenBit offset))).
Proof.
  unfold readPage_internal16, HAL_I2C_Master_Transmit,
    HAL_I2C_Master_Receive, addressed; simpl.
  rewrite high_byte, low_byte. fold (wire_address dev).
  destruct (receive_result _ _ _ _) as [st bytes]; reflexivity.
Qed.

Section Committing.
Variables (twr : Z) (self : Eeprom24) (t1 : list BusEvent).
Variables (start timeout : Z).

Hypothesis commit_in_time :
  0 <= lockup (chip_of twr t1) <= timeout /\ timeout <= UINT32_MAX.

(** Polling a chip that is committing a write: the loop leaves on the
    probe that follows the last tick of the lock-up. *)
Lemma eeprom_wait : forall (fuel j : nat) (w : World),
  trace w = t1 ++ poll self j ->
  u32 (tick w - start) = Z.of_nat j ->
  Z.of_nat j <= lockup (chip_of twr t1) ->
  lockup (chip_of twr t1) - Z.of_nat j < Z.of_nat fuel ->
  exists w2 : World,
    waitForReady_loop (eeprom twr) fuel self start timeout w = Some (true, w2)
    /\ trace w2 = t1 ++ poll self (Z.to_nat (lockup (chip_of twr t1)))
                  ++ [poll_event self].
Proof.
  destruct commit_in_time as [HL HT].
  induction fuel as [|fuel IH]; intros j w Tw Ew Hj Hf; [lia|].
  cbn [waitForReady_loop]. rewrite isReady_step.
  cbn [probe_status eeprom]. rewrite Tw, chip_after_poll by lia.
  cbn [lockup].
  destruct (Z.ltb_spec 0 (Z.max 0 (lockup (chip_of twr t1) - Z.of_nat j)))
    as [Hbusy|Hidle]; cbn [is_HAL_OK].
  - assert (E : u32 (HAL_GetTick (HAL_Delay (eeprom twr) 1
                                    (log (poll_event self) w)) - start)
                = Z.of_nat (S j)).
    { unfold HAL_GetTick, HAL_Delay, log. cbn [tick delay_ticks eeprom].
      rewrite elapsed_after_delay, Ew.
      replace (Z.of_nat j + 1) with (Z.of_nat (S j)) by lia.
      apply u32_small. lia. }
    rewrite E.
    destruct (Z.gtb_spec (Z.of_nat (S j)) timeout) as [Hout|Hin]; [lia|].
    apply (IH (S j)); [|exact E|lia|lia].
    unfold HAL_Delay, log. cbn [trace poll]. rewrite Tw, <- !app_assoc.
    reflexivity.
  - eexists. split; [reflexivity|].
    unfold log. cbn [trace]. rewrite Tw, <- app_assoc.
    replace (Z.to_nat (lockup (chip_of twr t1))) with j by lia.
    reflexivity.
Qed.
End Committing.

Section RoundTrip.
Variables (twr i2c address a : Z) (data : list Z) (w : World).

Hypothesis idle : lockup (chip_of twr (trace w)) = 0.
Hypothesis in_range : 0 <= a < 65536.
Hypothesis in_page : a mod 128 + Z.of_nat (length data) <= 128.

Lemma eeprom_writePage :
  Eeprom24_512.writePage (eeprom twr) (Eeprom24_512.ctor i2c address)
    a data (Z.of_nat (length data)) w
  = Done (true,
          log (MasterTransmit i2c (wire_address address)
                 (AddressCodec_encode SixteenBit a ++ data) 25) w).
Proof.
  pose proof (Z.mod_pos_bound a 128 ltac:(lia)) as Ba.
  unfold Eeprom24_512.writePage.
  rewrite writePage_internal16_frame by (cbn; lia).
  rewrite Nat2Z.id, firstn_all. unfold transmitted.
  cbn [transmit_status eeprom]. rewrite idle. reflexivity.
Qed.

Lemma chip_after_writePage :
  chip_of twr
    (trace w ++ [MasterTransmit i2c (wire_address address)
                   (AddressCodec_encode SixteenBit a ++ data) 25])
  = mkChip (fst (store_page a data (cells (chip_of twr (trace w)))))
      (snd (store_page a data (cells (chip_of twr (trace w)))))
      (match data with [] => 0 | _ => twr end).
Proof. apply chip_after_write; assumption. Qed.

Lemma cells_read_back (m : Z -> Z) :
  map (fun i => fst (store_page a data m) ((a + Z.of_nat i) mod 65536))
      (seq 0 (length data))
  = data.
Proof.
  pose proof (Z.mod_pos_bound a 128 ltac:(lia)) as Ba.
  pose proof (Z.div_mod a 128 ltac:(lia)) as Da.
  apply read_back; [lia|lia|].
  intros i Hi. rewrite store_page_cells by exact in_page.
  destruct (Z.leb_spec a (a + Z.of_nat i)),
    (Z.ltb_spec (a + Z.of_nat i) (a + Z.of_nat (length data)));
    cbn [andb]; try lia.
  replace (Z.to_nat (a + Z.of_nat i - a)) with i by lia. reflexivity.
Qed.
End RoundTrip.

(** The three steps of a page round trip on the simulated chip. *)
Lemma page_round_trip :
  forall (twr timeout i2c address a : Z) (data buf : list Z) (w : World)
         (fuel : nat),
    0 <= twr <= timeout ->
    timeout <= UINT32_MAX ->
    0 <= a < 65536 ->
    a mod 128 + Z.of_nat (length data) <= 128 ->
    lockup (chip_of twr (trace w)) = 0 ->
    twr < Z.of_nat fuel ->
    exists w1 w2 w3 : World,
      Eeprom24_512.writePage (eeprom twr) (Eeprom24_512.ctor i2c address)
        a data (Z.of_nat (length data)) w = Done (true, w1)
      /\ waitForReady (eeprom twr) fuel (Eeprom24_512.ctor i2c address)
           timeout w1 = Some (true, w2)
      /\ Eeprom24_512.readPage (eeprom twr) (Eeprom24_512.ctor i2c address)
           a buf (Z.of_nat (length data)) w2
         = ((true, data ++ drop (length data) buf), w3).
Proof.
  intros twr timeout i2c address a data buf w fuel Htwr Hmax Ha Hpage Hidle
    Hfuel.
  pose proof (Z.mod_pos_bound a 128 ltac:(lia)) as Ba.
  set (self := Eeprom24_512.ctor i2c address).
  set (tx := MasterTransmit i2c (wire_address address)
               (AddressCodec_encode SixteenBit a ++ data) 25).
  pose proof (chip_after_writePage twr i2c address a data w Hidle Ha) as C1.
  fold tx in C1.
  set (m1 := fst (store_page a data (cells (chip_of twr (trace w))))) in *.
  set (c1 := snd (store_page a data (cells (chip_of twr (trace w))))) in *.
  assert (HL : 0 <= lockup (chip_of twr (trace w ++ [tx])) <= twr).
  { rewrite C1. cbn [lockup]. destruct data; lia. }
  destruct (eeprom_wait twr self (trace w ++ [tx]) (tick w) timeout
              ltac:(lia) fuel 0 (log tx w)) as (w2 & W2 & T2).
  { unfold log. cbn [trace poll]. rewrite app_nil_r. reflexivity. }
  { unfold log. cbn [tick]. rewrite Z.sub_diag. reflexivity. }
  { cbn [Z.of_nat]. lia. }
  { cbn [Z.of_nat]. lia. }
  exists (log tx w), w2. eexists.
  split; [apply eeprom_writePage; assumption|].
  split; [exact W2|].
  assert (C2 : chip_of twr (trace w2) = mkChip m1 c1 0).
  { rewrite T2, app_assoc, chip_of_snoc, chip_after_poll by lia.
    rewrite C1. cbn [chip_step poll_event cells cursor lockup].
    f_equal. rewrite C1 in HL. cbn [lockup] in HL. lia. }
  pose proof (chip_after_write twr (trace w2) i2c (wire_address address) a []
                25) as C3.
  rewrite C2, app_nil_r in C3. cbn [lockup cells store_page fst snd] in C3.
  specialize (C3 eq_refl Ha).
  unfold Eeprom24_512.readPage. rewrite readPage_internal16_value.
  cbn [receive_result eeprom addressed log trace self Eeprom24_512.ctor
       Eeprom24_ctor m_i2c m_i2c_address].
  rewrite C3. cbn [lockup Z.ltb Z.compare fst snd is_HAL_OK].
  rewrite u16_small by lia.
  unfold read_cells. cbn [cells cursor]. rewrite Nat2Z.id.
  unfold m1. rewrite cells_read_back by assumption.
  rewrite firstn_all. unfold overlay. reflexivity.
Qed.

(** Against the simulated chip, started idle: a [writePage] of [data]
    that stays inside one page succeeds; a [waitForReady] whose timeout
    covers the write time of the chip then returns [true]; and a
    [readPage] of as many bytes at the same offset then succeeds and
    leaves [data] at the front of the caller's buffer. *)
Theorem write_wait_read_round_trip :
  forall (twr timeout i2c address a : Z) (data buf : list Z) (w : World)
         (fuel : nat),
    0 <= twr <= timeout ->
    timeout <= UINT32_MAX ->
    0 <= a < 65536 ->
    a mod 128 + Z.of_nat (length data) <= 128 ->
    lockup (chip_of twr (trace w)) = 0 ->
    twr < Z.of_nat fuel ->
    exists w1 w2 w3 : World,
      Eeprom24_512.writePage (eeprom twr) (Eeprom24_512.ctor i2c address)
        a data (Z.of_nat (length data)) w = Done (true, w1)
      /\ waitForReady (eeprom twr) fuel (Eeprom24_512.ctor i2c address)
           timeout w1 = Some (true, w2)
      /\ Eeprom24_512.readPage (eeprom twr) (Eeprom24_512.ctor i2c address)
           a buf (Z.of_nat (length data)) w2
         = ((true, data ++ drop (length data) buf), w3).
Proof.
  intros twr timeout i2c address a data buf w fuel Htwr Hmax Ha Hpage Hidle
    Hfuel.
  destruct (page_round_trip twr timeout i2c address a data buf w fuel
              Htwr Hmax Ha Hpage Hidle Hfuel) as (w1 & w2 & w3 & W & P & R).
  exists w1, w2, w3. split; [exact W|]. split; [exact P|exact R].
Qed.

Lemma write_wait_read_round_trip_witness :
  exists w1 w2 w3 : World,
    Eeprom24_512.writePage (eeprom 5) (Eeprom24_512.ctor 0 80)
      100 [1; 2; 3] 3 boot = Done (true, w1)
    /\ waitForReady (eeprom 5) 6 (Eeprom24_512.ctor 0 80) 25 w1
       = Some (true, w2)
    /\ Eeprom24_512.readPage (eeprom 5) (Eeprom24_512.ctor 0 80)
         100 [0; 0; 0; 9] 3 w2
       = ((true, [1; 2; 3] ++ drop 3 [0; 0; 0; 9]), w3).
Proof.
  apply (write_wait_read_round_trip 5 25 0 80 100 [1; 2; 3] [0; 0; 0; 9]
           boot 6).
  - lia.
  - unfold UINT32_MAX. lia.
  - lia.
  - apply Z.leb_le. reflexivity.
  - reflexivity.
  - apply Z.ltb_lt. reflexivity.
Defined.

Lemma trace_addressed (self : Eeprom24) (dev : Z) (w : World)
    (prefix : list Z) :
  trace (addressed self dev w prefix)
  = trace w ++ [MasterTransmit (m_i2c self) (wire_address dev) prefix 25].
Proof. reflexivity. Qed.

Lemma busy_chip_ignores_transmit (twr : Z) (t : list BusEvent)
    (h d : Z) (frame : list Z) (timeout : Z) :
  0 < lockup (chip_of twr t) ->
  chip_of twr (t ++ [MasterTransmit h d frame timeout]) = chip_of twr t.
Proof.
  intros H. rewrite chip_of_snoc. cbn [chip_step].
  destruct (Z.ltb_spec 0 (lockup (chip_of twr t))); [reflexivity|lia].
Qed.

(** Against the simulated chip with a write time above zero: right after
    a [writePage] of at least one byte has succeeded, and before any
    [waitForReady], the chip is off the bus, so a [readPage] returns
    [false] and leaves the buffer as it was, a [readByte] returns 0
    whatever the cell holds, and a [writeByte] returns [false] and
    stores nothing. *)
Theorem access_before_waitForReady_is_refused :
  forall (twr i2c address a a' v : Z) (data buf : list Z) (len : Z)
         (w : World),
    0 < twr ->
    data <> [] ->
    0 <= a < 65536 ->
    a mod 128 + Z.of_nat (length data) <= 128 ->
    lockup (chip_of twr (trace w)) = 0 ->
    exists w1 : World,
      Eeprom24_512.writePage (eeprom twr) (Eeprom24_512.ctor i2c address)
        a data (Z.of_nat (length data)) w = Done (true, w1)
      /\ fst (Eeprom24_512.readPage (eeprom twr)
                (Eeprom24_512.ctor i2c address) a' buf len w1)
         = (false, buf)
      /\ fst (Eeprom24_512.readByte (eeprom twr)
                (Eeprom24_512.ctor i2c address) a' w1) = 0
      /\ fst (Eeprom24_512.writeByte (eeprom twr)
                (Eeprom24_512.ctor i2c address) a' v w1) = false
      /\ cells (chip_of twr
                  (trace (snd (Eeprom24_512.writeByte (eeprom twr)
                                 (Eeprom24_512.ctor i2c address) a' v w1))))
         = cells (chip_of twr (trace w1)).
Proof.
  intros twr i2c address a a' v data buf len w Htwr Hdata Ha Hpage Hidle.
  set (tx := MasterTransmit i2c (wire_address address)
               (AddressCodec_encode SixteenBit a ++ data) 25).
  exists (log tx w).
  split; [apply eeprom_writePage; assumption|].
  pose proof (chip_after_writePage twr i2c address a data w Hidle Ha) as C1.
  fold tx in C1.
  assert (B1 : 0 < lockup (chip_of twr (trace (log tx w)))).
  { unfold log. cbn [trace]. rewrite C1. cbn [lockup].
    destruct data; [congruence|lia]. }
  assert (B2 : forall (h d : Z) (frame : list Z) (timeout : Z),
             (0 <? lockup (chip_of twr
                             (trace (log tx w)
                              ++ [MasterTransmit h d frame timeout])))
             = true).
  { intros. rewrite busy_chip_ignores_transmit by exact B1.
    apply Z.ltb_lt. exact B1. }
  split; [|split; [|split]].
  - unfold Eeprom24_512.readPage. rewrite readPage_internal16_value.
    cbn [receive_result eeprom]. rewrite trace_addressed, B2.
    cbn [fst snd is_HAL_OK]. rewrite firstn_nil.
    unfold overlay. reflexivity.
  - unfold Eeprom24_512.readByte. rewrite readByte_internal16_result.
    cbn [receive_result eeprom fst]. rewrite trace_addressed, B2.
    reflexivity.
  - unfold Eeprom24_512.writeByte, writeByte_internal16,
      HAL_I2C_Master_Transmit.
    cbn [transmit_status eeprom fst].
    apply Z.ltb_lt in B1. rewrite B1. reflexivity.
  - unfold Eeprom24_512.writeByte, writeByte_internal16,
      HAL_I2C_Master_Transmit.
    cbn [snd]. unfold log at 1. cbn [trace].
    rewrite busy_chip_ignores_transmit by exact B1. reflexivity.
Qed.

Lemma access_before_waitForReady_is_refused_witness :
  exists w1 : World,
    Eeprom24_512.writePage (eeprom 5) (Eeprom24_512.ctor 0 80)
      100 [1; 2; 3] 3 boot = Done (true, w1)
    /\ fst (Eeprom24_512.readPage (eeprom 5) (Eeprom24_512.ctor 0 80)
              100 [0; 0; 0] 3 w1) = (false, [0; 0; 0])
    /\ fst (Eeprom24_512.readByte (eeprom 5) (Eeprom24_512.ctor 0 80) 100 w1)
       = 0
    /\ fst (Eeprom24_512.writeByte (eeprom 5) (Eeprom24_512.ctor 0 80)
              100 7 w1) = false
    /\ cells (chip_of 5
                (trace (snd (Eeprom24_512.writeByte (eeprom 5)
                               (Eeprom24_512.ctor 0 80) 100 7 w1))))
       = cells (chip_of 5 (trace w1)).
Proof.
  apply (access_before_waitForReady_is_refused 5 0 80 100 100 7 [1; 2; 3]
           [0; 0; 0] 3 boot).
  - lia.
  - discriminate.
  - lia.
  - apply Z.leb_le. reflexivity.
  - reflexivity.
Defined.

(** Against the simulated chip, started idle: [writeByte] at any offset
    of the 24x512 succeeds, a [waitForReady] whose timeout covers the
    write time returns [true], and [readByte] at that offset then
    returns the byte written. *)
Theorem writeByte_readByte_round_trip :
  forall (twr timeout i2c address a v : Z) (w : World) (fuel : nat),
    0 <= twr <= timeout ->
    timeout <= UINT32_MAX ->
    0 <= a < 65536 ->
    lockup (chip_of twr (trace w)) = 0 ->
    twr < Z.of_nat fuel ->
    exists w1 w2 : World,
      Eeprom24_512.writeByte (eeprom twr) (Eeprom24_512.ctor i2c address)
        a v w = (true, w1)
      /\ waitForReady (eeprom twr) fuel (Eeprom24_512.ctor i2c address)
           timeout w1 = Some (true, w2)
      /\ fst (Eeprom24_512.readByte (eeprom twr)
                (Eeprom24_512.ctor i2c address) a w2) = v.
Proof.
  intros twr timeout i2c address a v w fuel Htwr Hmax Ha Hidle Hfuel.
  pose proof (Z.mod_pos_bound a 128 ltac:(lia)) as Ba.
  destruct (page_round_trip twr timeout i2c address a [v] [0] w
              fuel Htwr Hmax Ha ltac:(cbn [length]; lia) Hidle Hfuel)
    as (w1 & w2 & w3 & W & P & R).
  exists w1, w2.
  unfold Eeprom24_512.writePage, Eeprom24_512.readPage in *.
  unfold Eeprom24_512.writeByte, Eeprom24_512.readByte.
  destruct (one_byte_pages (eeprom twr)
              (Eeprom24_512.ctor i2c address) address a v w
              ltac:(cbn; lia)) as [Bw _].
  destruct (one_byte_pages (eeprom twr)
              (Eeprom24_512.ctor i2c address) address a v w2
              ltac:(cbn; lia)) as [_ Br].
  change (Z.of_nat (length [v])) with 1 in W, R.
  change (m_i2c_address (Eeprom24_512.ctor i2c address)) with address in *.
  split; [congruence|]. split; [exact P|].
  rewrite Br, R. reflexivity.
Qed.

Lemma writeByte_readByte_round_trip_witness :
  exists w1 w2 : World,
    Eeprom24_512.writeByte (eeprom 5) (Eeprom24_512.ctor 0 80) 65535 7 boot
    = (true, w1)
    /\ waitForReady (eeprom 5) 6 (Eeprom24_512.ctor 0 80) 25 w1
       = Some (true, w2)
    /\ fst (Eeprom24_512.readByte (eeprom 5) (Eeprom24_512.ctor 0 80)
              65535 w2) = 7.
Proof.
  apply (writeByte_readByte_round_trip 5 25 0 80 65535 7 boot 6).
  - lia.
  - unfold UINT32_MAX. lia.
  - lia.
  - reflexivity.
  - apply Z.ltb_lt. reflexivity.
Defined.
